(** * SecureKeeper: the route layer of the credential vault

    A shallow embedding of [server/routes.ts]: the login rate limiter and
    its attempt table, the authentication routes, the password (vault)
    routes, the statistics, alert and activity-log routes, and the password
    generator route.

    The route layer talks to three modules whose code is not part of the
    sources at hand: [./storage] (the durable store), [./auth] (session
    handling and the credential verifier) and [./utils] together with
    [@shared/schema] (pure helpers and the request schemas).  Calls to the
    first two are kept as explicit [await]s of a small program monad, so
    that what a route calls, in which order and with which arguments can be
    read off its trace; the pure helpers are the fields of the class
    [Imports]. *)

From Stdlib Require Import ZArith List String Ascii Bool Lia.
From stdpp Require Import base option list gmap strings pretty.

Set Implicit Arguments.
Set Default Proof Using "Type".

(** ** JavaScript values the routes rely on *)

(** [a || b] on values that are a string or [undefined]: the empty string
    and [undefined] are falsy. *)
Definition truthy_str (o : option string) : bool :=
  match o with
  | Some s => negb (String.eqb s "")
  | None => false
  end.

Definition js_or (a b : option string) : option string :=
  if truthy_str a then a else b.

(** A value used as a property key is converted to a string. *)
Definition as_key (o : option string) : string :=
  match o with
  | Some s => s
  | None => "undefined"
  end.

(** [parseInt(s)] without a radix: leading white space is skipped, a sign
    and a [0x] prefix are read, then the longest run of digits; [None]
    stands for [NaN].  A string is its UTF-8 bytes.  White space is what
    ECMAScript's [StrWhiteSpaceChar] is: TAB, LF, VT, FF, CR, SP, U+00A0,
    U+1680, U+2000 to U+200A, U+2028, U+2029, U+202F, U+205F, U+3000 and
    U+FEFF. *)
Definition is_white_space (a : ascii) : bool :=
  let n := nat_of_ascii a in
  (n =? 32)%nat || ((9 <=? n)%nat && (n <=? 13)%nat).

(** The white-space characters of two and of three bytes. *)
Definition is_white_space2 (a b : ascii) : bool :=
  (nat_of_ascii a =? 194)%nat && (nat_of_ascii b =? 160)%nat.

Definition is_white_space3 (a b c : ascii) : bool :=
  let x := nat_of_ascii a in
  let y := nat_of_ascii b in
  let z := nat_of_ascii c in
  ((x =? 225) && (y =? 154) && (z =? 128)
   || (x =? 226) && (y =? 128)
      && (((128 <=? z) && (z <=? 138)) || (z =? 168) || (z =? 169) || (z =? 175))
   || (x =? 226) && (y =? 129) && (z =? 159)
   || (x =? 227) && (y =? 128) && (z =? 128)
   || (x =? 239) && (y =? 187) && (z =? 191))%nat.

Fixpoint skip_white_space (s : string) : string :=
  match s with
  | String a r =>
      if is_white_space a then skip_white_space r
      else if (nat_of_ascii a =? 194)%nat then
        match r with
        | String b r' => if is_white_space2 a b then skip_white_space r' else s
        | EmptyString => s
        end
      else if ((225 <=? nat_of_ascii a) && (nat_of_ascii a <=? 239))%nat then
        match r with
        | String b (String c r') =>
            if is_white_space3 a b c then skip_white_space r' else s
        | _ => s
        end
      else s
  | EmptyString => s
  end.

(** The double nearest to an integer (ties to even): [parseInt] returns a
    number, so an integer of more than 53 significant bits is rounded.  (A
    run of more than 308 digits, which reads as [Infinity], is kept as the
    rounded integer: it passes the same tests, being positive and not
    [NaN].) *)
Definition to_double (n : Z) : Z :=
  let a := Z.abs n in
  if (a <? 2 ^ 53)%Z then n
  else
    let e := (Z.log2 a - 52)%Z in
    let q := (a / 2 ^ e)%Z in
    let r := (a mod 2 ^ e)%Z in
    let half := (2 ^ (e - 1))%Z in
    let q' := if (half <? r)%Z || ((r =? half)%Z && Z.odd q) then (q + 1)%Z else q in
    (Z.sgn n * (q' * 2 ^ e))%Z.

Definition digit_of (radix : Z) (a : ascii) : option Z :=
  let n := Z.of_nat (nat_of_ascii a) in
  let d :=
    (if (48 <=? n) && (n <=? 57) then n - 48
     else if (97 <=? n) && (n <=? 122) then n - 87
     else if (65 <=? n) && (n <=? 90) then n - 55
     else radix)%Z in
  if (d <? radix)%Z then Some d else None.

Fixpoint parse_digits (radix : Z) (s : string) (acc : option Z) : option Z :=
  match s with
  | String a r =>
      match digit_of radix a with
      | Some d =>
          parse_digits radix r
            (Some (match acc with Some v => v * radix + d | None => d end)%Z)
      | None => acc
      end
  | EmptyString => acc
  end.

Definition parseInt (s : string) : option Z :=
  let s := skip_white_space s in
  let '(sign, s) :=
    match s with
    | String "-" r => ((-1)%Z, r)
    | String "+" r => (1%Z, r)
    | _ => (1%Z, s)
    end in
  let '(radix, s) :=
    match s with
    | String "0" (String "x" r) => (16%Z, r)
    | String "0" (String "X" r) => (16%Z, r)
    | _ => (10%Z, s)
    end in
  option_map (fun v => to_double (sign * v)) (parse_digits radix s None).

(** [isNaN(n) || n <= 0], the guard on every [:id] path parameter. *)
Definition invalid_id (n : option Z) : bool :=
  match n with
  | None => true
  | Some v => (v <=? 0)%Z
  end.

(** The number behind a parse result, where [NaN] has been excluded. *)
Definition number (n : option Z) : Z := default 0%Z n.

(** ** The rate limiting store *)

(** [loginAttempts : Record<string, { count: number; lastAttempt: number }>],
    read through its declared type: a finite map from the client key to its
    record.  A record, once created, is never replaced or removed, so a
    reference to [loginAttempts[ip]] is the key [ip].  The object literal
    behind the table also answers for the property names every object
    inherits ([constructor], [toString], ...); a client key of that form is
    outside this reading of the table. *)
Record AttemptInfo := { count : Z; lastAttempt : Z }.

Definition MAX_ATTEMPTS : Z := 5.
Definition BLOCK_TIME_MS : Z := 15 * 60 * 1000.

(** ** The durable store, as the routes see it *)

Record Password := {
  p_id : Z;
  p_userId : Z;
  p_title : string;
  p_encryptedPassword : string;
  p_strength : Z
}.

Record SecurityAlert := {
  a_id : Z;
  a_userId : Z;
  a_kind : string;
  a_isResolved : bool
}.

Record ActivityLog := {
  l_id : Z;
  l_userId : Z;
  l_action : string;
  l_details : string;
  l_ipAddress : string;
  l_userAgent : string
}.

Record PasswordStats := { total : Z; strong : Z; weak : Z }.

(** The argument of [storage.createPassword]: the parsed body and the
    strength the route computed. *)
Record InsertPassword := {
  ip_title : string;
  ip_encryptedPassword : string;
  ip_strength : Z
}.

(** The argument of [storage.updatePassword]: a partial entry; [us_strength]
    is present only when the route added it. *)
Record UpdatePassword := {
  us_title : option string;
  us_encryptedPassword : option string;
  us_strength : option Z
}.

(** The argument of [storage.createActivityLog]. *)
Record InsertActivityLog := {
  il_userId : Z;
  il_action : string;
  il_details : string;
  il_ipAddress : string;
  il_userAgent : string
}.

(** ** Calls that leave the route layer *)

Inductive StorageCall : Type :=
| getPasswordsByUserId (userId : Z)
| getPasswordById (id userId : Z)
| createPassword (data : InsertPassword) (userId : Z)
| updatePassword (id userId : Z) (data : UpdatePassword)
| deletePassword (id userId : Z)
| getPasswordStats (userId : Z)
| getSecurityAlertsByUserId (userId : Z)
| resolveSecurityAlert (id userId : Z)
| createActivityLog (log : InsertActivityLog)
| getActivityLogsByUserId (userId : Z) (limit : Z).

(** The handlers of [./auth]; each one writes the response itself. *)
Inductive AuthCall : Type := login | register | logout | getCurrentUser.

(** [isAuthenticated] is the middleware of [./auth] that ten routes are
    registered behind; it is handed the request, of which the session's
    user id is kept, and either calls [next()] (it answers [true]) or
    answers the request itself ([false]). *)
Inductive Call : Type :=
| storage (c : StorageCall)
| auth (c : AuthCall)
| generatePasswordUtil (length : Z) (upper lower numbers symbols : bool)
| isAuthenticated (userId : option Z).

Definition StorageAnswer (c : StorageCall) : Type :=
  match c with
  | getPasswordsByUserId _ => list Password
  | getPasswordById _ _ => option Password
  | createPassword _ _ => Password
  | updatePassword _ _ _ => option Password
  | deletePassword _ _ => bool
  | getPasswordStats _ => PasswordStats
  | getSecurityAlertsByUserId _ => list SecurityAlert
  | resolveSecurityAlert _ _ => bool
  | createActivityLog _ => ActivityLog
  | getActivityLogsByUserId _ _ => list ActivityLog
  end.

Definition Answer (c : Call) : Type :=
  match c with
  | storage c => StorageAnswer c
  | auth _ => unit
  | generatePasswordUtil _ _ _ _ _ => string
  | isAuthenticated _ => bool
  end.

(** A promise settles: it resolves with a value or rejects. *)
Inductive Result (A : Type) : Type :=
| Ok (a : A)
| Err.
Arguments Err {A}.

(** ** Route programs *)

(** What a route does: it returns, throws, awaits a call of another module,
    or reads or writes the attempt table. *)
Inductive Prog (R : Type) : Type :=
| Ret (r : R)
| Raise
| Await (c : Call) (k : Result (Answer c) -> Prog R)
| ReadAttempts (k : gmap string AttemptInfo -> Prog R)
| WriteAttempts (t : gmap string AttemptInfo) (k : Prog R).
Arguments Raise {R}.

Fixpoint bind {A B : Type} (p : Prog A) (f : A -> Prog B) : Prog B :=
  match p with
  | Ret a => f a
  | Raise => Raise
  | Await c k => Await c (fun r => bind (k r) f)
  | ReadAttempts k => ReadAttempts (fun t => bind (k t) f)
  | WriteAttempts t k => WriteAttempts t (bind k f)
  end.

(** [try { p } catch { h }] *)
Fixpoint try_catch {A : Type} (p : Prog A) (h : Prog A) : Prog A :=
  match p with
  | Ret a => Ret a
  | Raise => h
  | Await c k => Await c (fun r => try_catch (k r) h)
  | ReadAttempts k => ReadAttempts (fun t => try_catch (k t) h)
  | WriteAttempts t k => WriteAttempts t (try_catch k h)
  end.

(** [await c]: a rejected promise throws at the [await]. *)
Definition await (c : Call) : Prog (Answer c) :=
  Await c (fun r => match r with Ok a => Ret a | Err => Raise end).

Declare Scope prog_scope.
Delimit Scope prog_scope with prog.
Notation "x <- p ;; q" := (bind p (fun x => q))
  (at level 100, p at next level, right associativity) : prog_scope.
Notation "p ;; q" := (bind p (fun _ => q))
  (at level 100, right associativity) : prog_scope.
Open Scope prog_scope.

(** Field access through a reference to a record of the attempt table.
    Reading a field of [undefined] throws. *)
Definition getField {A} (f : AttemptInfo -> A) (key : string) : Prog A :=
  ReadAttempts (fun t =>
    match t !! key with
    | Some a => Ret (f a)
    | None => Raise
    end).

Definition setCount (key : string) (v : Z) : Prog unit :=
  ReadAttempts (fun t =>
    match t !! key with
    | Some a =>
        WriteAttempts (<[key := {| count := v; lastAttempt := lastAttempt a |}]> t)
          (Ret tt)
    | None => Raise
    end).

Definition setLastAttempt (key : string) (v : Z) : Prog unit :=
  ReadAttempts (fun t =>
    match t !! key with
    | Some a =>
        WriteAttempts (<[key := {| count := count a; lastAttempt := v |}]> t)
          (Ret tt)
    | None => Raise
    end).

(** ** The store behind [./storage] *)

Record Storage := {
  passwords : list Password;          (* in insertion order *)
  securityAlerts : list SecurityAlert;
  activityLogs : list ActivityLog;    (* in the order they were appended *)
  nextPasswordId : Z;
  nextLogId : Z
}.

Definition is_entry (id userId : Z) (p : Password) : bool :=
  (p_id p =? id)%Z && (p_userId p =? userId)%Z.

Definition is_open_alert (id userId : Z) (a : SecurityAlert) : bool :=
  (a_id a =? id)%Z && (a_userId a =? userId)%Z && negb (a_isResolved a).

Definition apply_update (data : UpdatePassword) (p : Password) : Password :=
  {| p_id := p_id p;
     p_userId := p_userId p;
     p_title := default (p_title p) (us_title data);
     p_encryptedPassword :=
       default (p_encryptedPassword p) (us_encryptedPassword data);
     p_strength := default (p_strength p) (us_strength data) |}.

Definition resolve (a : SecurityAlert) : SecurityAlert :=
  {| a_id := a_id a; a_userId := a_userId a; a_kind := a_kind a;
     a_isResolved := true |}.

Definition with_passwords (d : Storage) (ps : list Password) (next : Z) : Storage :=
  {| passwords := ps; securityAlerts := securityAlerts d;
     activityLogs := activityLogs d;
     nextPasswordId := next; nextLogId := nextLogId d |}.

(** Modelled from the spec: the thresholds of the statistics, with the
    values of the spec's example ([./storage] is not among the sources). *)
Definition WEAK_MAX : Z := 39.
Definition STRONG_MIN : Z := 70.

Definition count_if {A} (f : A -> bool) (l : list A) : Z :=
  Z.of_nat (length (List.filter f l)).

(** Modelled from the spec: the operations of [./storage], which is not
    among the sources.  Every query and write is filtered by the owner;
    [create] persists the entry it is given; [update] writes the fields
    present in the partial entry and answers not-found for an entry that is
    absent or owned by someone else; [delete] removes an owned entry;
    [stats] reports raw counts; [resolve] sets the resolved flag once; the
    activity log is append-only and is read most-recent-first, at most
    [limit] entries. *)
Definition DatabaseStorage (c : StorageCall) (d : Storage)
  : StorageAnswer c * Storage :=
  match c as c0 return StorageAnswer c0 * Storage with
  | getPasswordsByUserId u =>
      (List.filter (fun p => p_userId p =? u)%Z (passwords d), d)
  | getPasswordById id u =>
      (List.find (is_entry id u) (passwords d), d)
  | createPassword data u =>
      let p := {| p_id := nextPasswordId d; p_userId := u;
                  p_title := ip_title data;
                  p_encryptedPassword := ip_encryptedPassword data;
                  p_strength := ip_strength data |} in
      (p, with_passwords d (passwords d ++ [p]) (nextPasswordId d + 1))
  | updatePassword id u data =>
      match List.find (is_entry id u) (passwords d) with
      | Some p =>
          (Some (apply_update data p),
           with_passwords d
             (List.map (fun q => if is_entry id u q then apply_update data q else q)
                (passwords d))
             (nextPasswordId d))
      | None => (None, d)
      end
  | deletePassword id u =>
      if List.existsb (is_entry id u) (passwords d)
      then (true,
            with_passwords d
              (List.filter (fun q => negb (is_entry id u q)) (passwords d))
              (nextPasswordId d))
      else (false, d)
  | getPasswordStats u =>
      let mine := List.filter (fun p => p_userId p =? u)%Z (passwords d) in
      ({| total := Z.of_nat (length mine);
          strong := count_if (fun p => STRONG_MIN <=? p_strength p)%Z mine;
          weak := count_if (fun p => p_strength p <=? WEAK_MAX)%Z mine |}, d)
  | getSecurityAlertsByUserId u =>
      (List.filter (fun a => a_userId a =? u)%Z (securityAlerts d), d)
  | resolveSecurityAlert id u =>
      if List.existsb (is_open_alert id u) (securityAlerts d)
      then (true,
            {| passwords := passwords d;
               securityAlerts :=
                 List.map (fun a => if is_open_alert id u a then resolve a else a)
                   (securityAlerts d);
               activityLogs := activityLogs d;
               nextPasswordId := nextPasswordId d; nextLogId := nextLogId d |})
      else (false, d)
  | createActivityLog log =>
      let e := {| l_id := nextLogId d; l_userId := il_userId log;
                  l_action := il_action log; l_details := il_details log;
                  l_ipAddress := il_ipAddress log;
                  l_userAgent := il_userAgent log |} in
      (e, {| passwords := passwords d; securityAlerts := securityAlerts d;
             activityLogs := activityLogs d ++ [e];
             nextPasswordId := nextPasswordId d;
             nextLogId := (nextLogId d + 1)%Z |})
  | getActivityLogsByUserId u limit =>
      (take (Z.to_nat limit)
         (reverse (List.filter (fun l => l_userId l =? u)%Z (activityLogs d))), d)
  end.

(** ** Running a route *)

(** The process state a request meets: the attempt table of the route layer
    and the store. *)
Record World := {
  loginAttempts : gmap string AttemptInfo;
  db : Storage
}.

(** How the other modules settle a call, and what the call leaves in the
    store. *)
Definition Env : Type := forall c : Call, Storage -> Result (Answer c) * Storage.

(** [run env p w]: the outcome of [p], the state it leaves, and the calls it
    made, in order. *)
Fixpoint run {R : Type} (env : Env) (p : Prog R) (w : World)
  : Result R * World * list Call :=
  match p with
  | Ret r => (Ok r, w, [])
  | Raise => (Err, w, [])
  | Await c k =>
      let '(a, d) := env c (db w) in
      let '(r, w', calls) :=
        run env (k a) {| loginAttempts := loginAttempts w; db := d |} in
      (r, w', c :: calls)
  | ReadAttempts k => run env (k (loginAttempts w)) w
  | WriteAttempts t k => run env k {| loginAttempts := t; db := db w |}
  end.

Definition outcome {R} (x : Result R * World * list Call) : Result R := x.1.1.
Definition final {R} (x : Result R * World * list Call) : World := x.1.2.
Definition calls {R} (x : Result R * World * list Call) : list Call := x.2.

(** A store call either fails and leaves the store as it was, or does what
    [DatabaseStorage] does. *)
Definition transactional (env : Env) : Prop :=
  forall (c : StorageCall) (d : Storage),
    env (storage c) d = (Err, d) \/
    env (storage c) d = (Ok (DatabaseStorage c d).1, (DatabaseStorage c d).2).

(** The environment in which no store call fails; [./auth] settles as
    [verdict] says and leaves the store alone.

    Modelled from the spec: the middleware [isAuthenticated] of [./auth],
    which is not among the sources.  A request without a resolved user id
    is rejected before it reaches the vault; one with a user id is let
    through. *)
Definition reliable (verdict : AuthCall -> Result unit) (generated : string) : Env :=
  fun c =>
    match c as c0 return Storage -> Result (Answer c0) * Storage with
    | storage c => fun d => (Ok (DatabaseStorage c d).1, (DatabaseStorage c d).2)
    | auth a => fun d => (verdict a, d)
    | generatePasswordUtil _ _ _ _ _ => fun d => (Ok generated, d)
    | isAuthenticated userId =>
        fun d =>
          (Ok match userId with
              | Some u => negb (u =? 0)%Z
              | None => false
              end, d)
    end.

(** ** What the routes import *)

(** [schema.safeParse(body)]: the parsed data, or the message of the first
    issue. *)
Inductive SafeParse (A : Type) : Type :=
| ParseOk (data : A)
| ParseFail (message : string).
Arguments ParseOk {A}.
Arguments ParseFail {A}.

Record InsertUser := { email : string; password : string }.

Record PasswordFields := { title : string; encryptedPassword : string }.

Record PartialPasswordFields := {
  new_title : option string;
  new_encryptedPassword : option string
}.

Record PasswordGenerator := {
  length : Z;
  includeUppercase : bool;
  includeLowercase : bool;
  includeNumbers : bool;
  includeSymbols : bool
}.

(** The request schemas of [@shared/schema] and the pure helpers of
    [./utils]; neither module is among the sources, so the routes are
    verified for every choice of them. *)
Class Imports := {
  Body : Type;
  loginUserSchema : Body -> SafeParse unit;
  insertUserSchema : Body -> SafeParse InsertUser;
  insertPasswordSchema : Body -> SafeParse PasswordFields;
  updatePasswordSchema : Body -> SafeParse PartialPasswordFields;
  passwordGeneratorSchema : Body -> SafeParse PasswordGenerator;
  calculatePasswordStrength : string -> Z;
  isValidEmail : string -> bool;
  isStrongPassword : string -> bool
}.

(** ** Responses *)

Inductive Json : Type :=
| message (m : string)
| json_passwords (ps : list Password)
| json_password (p : Password)
| json_stats (s : PasswordStats)
| json_alerts (l : list SecurityAlert)
| json_logs (l : list ActivityLog)
| json_generated (password : string) (strength : Z)
| json_health.

(** The response a request gets: one the route wrote, or the one the
    [./auth] handler it awaited wrote. *)
Inductive Response : Type :=
| respond (status : Z) (body : Json)
| sent_by_auth.

Definition handleServerError (m : string) : Response := respond 500 (message m).

Section Routes.

Context `{Imports}.

Record Request := {
  x_forwarded_for : option string;   (* req.headers["x-forwarded-for"] *)
  user_agent : option string;        (* req.headers["user-agent"] *)
  ip : option string;                (* req.ip *)
  session_userId : option Z;         (* req.session.userId *)
  params_id : string;                (* req.params.id *)
  body : Body                        (* req.body *)
}.

(** [(req.headers["x-forwarded-for"] || req.ip) as string], used as a key. *)
Definition client_key (req : Request) : string :=
  as_key (js_or (x_forwarded_for req) (ip req)).

(** [(req.headers["x-forwarded-for"] || req.ip) as string || ""] *)
Definition client_address (req : Request) : string :=
  default "" (js_or (js_or (x_forwarded_for req) (ip req)) (Some "")).

(** [req.headers["user-agent"] || ""] *)
Definition client_agent (req : Request) : string :=
  default "" (js_or (user_agent req) (Some "")).

(** [req.session.userId], when it is truthy. *)
Definition session_user (req : Request) : option Z :=
  match session_userId req with
  | Some u => if (u =? 0)%Z then None else Some u
  | None => None
  end.

(** *** The rate limiter middleware *)

(** [next] receives [res.locals.loginAttemptInfo], a reference into the
    attempt table. *)
Definition loginRateLimiter (now : Z) (req : Request)
    (next : option string -> Prog Response) : Prog Response :=
  let ip := client_key req in
  t <- ReadAttempts (fun t => Ret t) ;;
  (match t !! ip with
   | None => WriteAttempts (<[ip := {| count := 0; lastAttempt := now |}]> t) (Ret tt)
   | Some _ => Ret tt
   end) ;;
  let attemptInfo := ip in
  (* Reset count if last attempt was long ago *)
  last <- getField lastAttempt attemptInfo ;;
  (if (BLOCK_TIME_MS <? now - last)%Z then setCount attemptInfo 0 else Ret tt) ;;
  setLastAttempt attemptInfo now ;;
  c <- getField count attemptInfo ;;
  if (MAX_ATTEMPTS <=? c)%Z
  then Ret (respond 429
              (message "Too many login attempts. Please try again after 15 minutes."))
  else next (Some attemptInfo).

(** *** Auth routes *)

Definition post_auth_login_handler (req : Request)
    (loginAttemptInfo : option string) : Prog Response :=
  try_catch
    (match loginUserSchema (body req) with
     | ParseFail m => Ret (respond 400 (message m))
     | ParseOk _ =>
         await (auth login) ;;
         (* If we get here, login was successful *)
         (match loginAttemptInfo with
          | Some attemptInfo => setCount attemptInfo 0
          | None => Ret tt
          end) ;;
         Ret sent_by_auth
     end)
    ((* Increment attempt count on failure *)
     (match loginAttemptInfo with
      | Some attemptInfo =>
          c <- getField count attemptInfo ;; setCount attemptInfo (c + 1)
      | None => Ret tt
      end) ;;
     Ret (handleServerError "An error occurred during login")).

Definition post_auth_login (now : Z) (req : Request) : Prog Response :=
  loginRateLimiter now req (post_auth_login_handler req).

Definition post_auth_register (req : Request) : Prog Response :=
  try_catch
    (match insertUserSchema (body req) with
     | ParseFail m => Ret (respond 400 (message m))
     | ParseOk data =>
         if negb (isValidEmail (email data))
         then Ret (respond 400 (message "Invalid email format"))
         else if negb (isStrongPassword (password data))
         then Ret (respond 400 (message
           "Password is too weak. It must have uppercase, lowercase, numbers, symbols and be at least 8 characters long."))
         else await (auth register) ;; Ret sent_by_auth
     end)
    (Ret (handleServerError "An error occurred during registration")).

Definition post_auth_logout (req : Request) : Prog Response :=
  try_catch (await (auth logout) ;; Ret sent_by_auth)
    (Ret (handleServerError "Failed to logout")).

Definition get_auth_me (req : Request) : Prog Response :=
  try_catch (await (auth getCurrentUser) ;; Ret sent_by_auth)
    (Ret (handleServerError "Failed to get current user")).

(** *** Password routes

    Each of the routes below is registered behind [isAuthenticated] of
    [./auth]; the handler checks [req.session.userId] again itself. *)

Definition unauthorized : Response := respond 401 (message "Unauthorized").

Definition get_passwords (req : Request) : Prog Response :=
  try_catch
    (match session_user req with
     | None => Ret unauthorized
     | Some userId =>
         passwords <- await (storage (getPasswordsByUserId userId)) ;;
         Ret (respond 200 (json_passwords passwords))
     end)
    (Ret (handleServerError "Failed to retrieve passwords")).

Definition get_password (req : Request) : Prog Response :=
  try_catch
    (match session_user req with
     | None => Ret unauthorized
     | Some userId =>
         let passwordId := parseInt (params_id req) in
         if invalid_id passwordId
         then Ret (respond 400 (message "Invalid password ID"))
         else
           password <- await (storage (getPasswordById (number passwordId) userId)) ;;
           match password with
           | None => Ret (respond 404 (message "Password not found"))
           | Some p => Ret (respond 200 (json_password p))
           end
     end)
    (Ret (handleServerError "Failed to retrieve password")).

Definition activity (req : Request) (userId : Z) (action details : string)
  : InsertActivityLog :=
  {| il_userId := userId; il_action := action; il_details := details;
     il_ipAddress := client_address req; il_userAgent := client_agent req |}.

Definition post_passwords (req : Request) : Prog Response :=
  try_catch
    (match session_user req with
     | None => Ret unauthorized
     | Some userId =>
         match insertPasswordSchema (body req) with
         | ParseFail m => Ret (respond 400 (message m))
         | ParseOk data =>
             (* Calculate password strength and add it to the data *)
             let strength := calculatePasswordStrength (encryptedPassword data) in
             let passwordData :=
               {| ip_title := title data;
                  ip_encryptedPassword := encryptedPassword data;
                  ip_strength := strength |} in
             newPassword <- await (storage (createPassword passwordData userId)) ;;
             (* Log activity *)
             await (storage (createActivityLog
               (activity req userId "create_password"
                  ("Created password for " ++ p_title newPassword)))) ;;
             Ret (respond 201 (json_password newPassword))
         end
     end)
    (Ret (handleServerError "Failed to create password")).

Definition put_password (req : Request) : Prog Response :=
  try_catch
    (match session_user req with
     | None => Ret unauthorized
     | Some userId =>
         let passwordId := parseInt (params_id req) in
         if invalid_id passwordId
         then Ret (respond 400 (message "Invalid password ID"))
         else
           match updatePasswordSchema (body req) with
           | ParseFail m => Ret (respond 400 (message m))
           | ParseOk data =>
               (* Calculate strength if password is being updated *)
               let updateData :=
                 if truthy_str (new_encryptedPassword data)
                 then
                   let strength :=
                     calculatePasswordStrength
                       (default "" (new_encryptedPassword data)) in
                   {| us_title := new_title data;
                      us_encryptedPassword := new_encryptedPassword data;
                      us_strength := Some strength |}
                 else
                   {| us_title := new_title data;
                      us_encryptedPassword := new_encryptedPassword data;
                      us_strength := None |} in
               updatedPassword <-
                 await (storage (updatePassword (number passwordId) userId updateData)) ;;
               match updatedPassword with
               | None => Ret (respond 404 (message "Password not found"))
               | Some updatedPassword =>
                   (* Log activity *)
                   await (storage (createActivityLog
                     (activity req userId "update_password"
                        ("Updated password for " ++ p_title updatedPassword)))) ;;
                   Ret (respond 200 (json_password updatedPassword))
               end
           end
     end)
    (Ret (handleServerError "Failed to update password")).

Definition delete_password (req : Request) : Prog Response :=
  try_catch
    (match session_user req with
     | None => Ret unauthorized
     | Some userId =>
         let passwordId := parseInt (params_id req) in
         if invalid_id passwordId
         then Ret (respond 400 (message "Invalid password ID"))
         else
           success <- await (storage (deletePassword (number passwordId) userId)) ;;
           if negb success
           then Ret (respond 404 (message "Password not found"))
           else
             (* Log activity *)
             await (storage (createActivityLog
               (activity req userId "delete_password"
                  ("Deleted password with id " ++ pretty (number passwordId))))) ;;
             Ret (respond 200 (message "Password deleted successfully"))
     end)
    (Ret (handleServerError "Failed to delete password")).

(** *** Stats, alerts and activity logs *)

Definition get_password_stats (req : Request) : Prog Response :=
  try_catch
    (match session_user req with
     | None => Ret unauthorized
     | Some userId =>
         stats <- await (storage (getPasswordStats userId)) ;;
         Ret (respond 200 (json_stats stats))
     end)
    (Ret (handleServerError "Failed to retrieve password statistics")).

Definition get_security_alerts (req : Request) : Prog Response :=
  try_catch
    (match session_user req with
     | None => Ret unauthorized
     | Some userId =>
         alerts <- await (storage (getSecurityAlertsByUserId userId)) ;;
         Ret (respond 200 (json_alerts alerts))
     end)
    (Ret (handleServerError "Failed to retrieve security alerts")).

Definition post_security_alert_resolve (req : Request) : Prog Response :=
  try_catch
    (match session_user req with
     | None => Ret unauthorized
     | Some userId =>
         let alertId := parseInt (params_id req) in
         if invalid_id alertId
         then Ret (respond 400 (message "Invalid alert ID"))
         else
           success <- await (storage (resolveSecurityAlert (number alertId) userId)) ;;
           if negb success
           then Ret (respond 404 (message "Security alert not found"))
           else Ret (respond 200 (message "Alert resolved successfully"))
     end)
    (Ret (handleServerError "Failed to resolve alert")).

Definition get_activity_logs (req : Request) : Prog Response :=
  try_catch
    (match session_user req with
     | None => Ret unauthorized
     | Some userId =>
         logs <- await (storage (getActivityLogsByUserId userId 20)) ;;
         Ret (respond 200 (json_logs logs))
     end)
    (Ret (handleServerError "Failed to retrieve activity logs")).

(** *** Health check and password generator *)

Definition get_health (req : Request) : Prog Response :=
  Ret (respond 200 json_health).

Definition post_generate_password (req : Request) : Prog Response :=
  try_catch
    (match passwordGeneratorSchema (body req) with
     | ParseFail m => Ret (respond 400 (message m))
     | ParseOk data =>
         password <-
           await (generatePasswordUtil (length data) (includeUppercase data)
                    (includeLowercase data) (includeNumbers data)
                    (includeSymbols data)) ;;
         let strength := calculatePasswordStrength password in
         Ret (respond 200 (json_generated password strength))
     end)
    (Ret (handleServerError "Failed to generate password")).

(** *** The routing table *)

Inductive Route : Type :=
| POST_api_auth_login
| POST_api_auth_register
| POST_api_auth_logout
| GET_api_auth_me
| GET_api_passwords
| GET_api_passwords_id
| POST_api_passwords
| PUT_api_passwords_id
| DELETE_api_passwords_id
| GET_api_password_stats
| GET_api_security_alerts
| POST_api_security_alerts_id_resolve
| GET_api_activity_logs
| GET_api_health
| POST_api_generate_password.

(** The handler of each route; [now] is what [Date.now()] reads when the
    request arrives. *)
Definition registerRoutes (r : Route) (now : Z) (req : Request) : Prog Response :=
  match r with
  | POST_api_auth_login => post_auth_login now req
  | POST_api_auth_register => post_auth_register req
  | POST_api_auth_logout => post_auth_logout req
  | GET_api_auth_me => get_auth_me req
  | GET_api_passwords => get_passwords req
  | GET_api_passwords_id => get_password req
  | POST_api_passwords => post_passwords req
  | PUT_api_passwords_id => put_password req
  | DELETE_api_passwords_id => delete_password req
  | GET_api_password_stats => get_password_stats req
  | GET_api_security_alerts => get_security_alerts req
  | POST_api_security_alerts_id_resolve => post_security_alert_resolve req
  | GET_api_activity_logs => get_activity_logs req
  | GET_api_health => get_health req
  | POST_api_generate_password => post_generate_password req
  end.

(** The routes registered as [app.METHOD(path, isAuthenticated, handler)]. *)
Definition behind_isAuthenticated (r : Route) : bool :=
  match r with
  | GET_api_passwords => true
  | GET_api_passwords_id => true
  | POST_api_passwords => true
  | PUT_api_passwords_id => true
  | DELETE_api_passwords_id => true
  | GET_api_password_stats => true
  | GET_api_security_alerts => true
  | POST_api_security_alerts_id_resolve => true
  | GET_api_activity_logs => true
  | POST_api_generate_password => true
  | _ => false
  end.

(** A route as it is registered: the handler runs when the middleware
    before it has called [next()].  A throw of the middleware is not caught
    by the code of the route. *)
Definition app (r : Route) (now : Z) (req : Request) : Prog Response :=
  if behind_isAuthenticated r
  then
    next <- await (isAuthenticated (session_userId req)) ;;
    if (next : bool) then registerRoutes r now req else Ret sent_by_auth
  else registerRoutes r now req.

End Routes.

(** * Notions used in the statements *)

Definition too_many : Response :=
  respond 429 (message "Too many login attempts. Please try again after 15 minutes.").

(** What the rate limiter leaves of a client's record at time [now]: a new
    record for a client it has not seen, the count cleared when the last
    attempt is more than [BLOCK_TIME_MS] back, the time of this attempt. *)
Definition gate_record (o : option AttemptInfo) (now : Z) : AttemptInfo :=
  match o with
  | None => {| count := 0; lastAttempt := now |}
  | Some a =>
      {| count := if (BLOCK_TIME_MS <? now - lastAttempt a)%Z then 0%Z else count a;
         lastAttempt := now |}
  end.

Definition with_attempts (w : World) (t : gmap string AttemptInfo) : World :=
  {| loginAttempts := t; db := db w |}.

Definition with_count (a : AttemptInfo) (c : Z) : AttemptInfo :=
  {| count := c; lastAttempt := lastAttempt a |}.

(** The count of a client's record, if it has one. *)
Definition count_of (w : World) (key : string) : option Z :=
  count <$> loginAttempts w !! key.

(** Counts never go below zero: they start at 0 and are only cleared or
    incremented. *)
Definition counts_nonneg (t : gmap string AttemptInfo) : Prop :=
  forall key a, t !! key = Some a -> (0 <= count a)%Z.

Section Notions.

Context `{Imports}.

(** *** Repeated attempts *)

Record LoginAttempt := {
  when : Z;            (* the time of the attempt *)
  request : Request;
  settles : Env        (* how [./auth] and the store answer during it *)
}.

Definition attempt (a : LoginAttempt) (w : World) : Result Response * World * list Call :=
  run (settles a) (post_auth_login (when a) (request a)) w.

Fixpoint attempts (l : list LoginAttempt) (w : World) : World :=
  match l with
  | [] => w
  | a :: l => attempts l (final (attempt a w))
  end.


(** Each attempt comes at most [BLOCK_TIME_MS] after the one before. *)
Fixpoint within_block (prev : Z) (l : list LoginAttempt) : Prop :=
  match l with
  | [] => True
  | a :: l => (when a - prev <= BLOCK_TIME_MS)%Z /\ within_block (when a) l
  end.




End Notions.

(** ** The calls a route can make *)

(** [only_calls P p]: whatever the other modules answer, [p] makes no call
    outside [P]. *)
Inductive only_calls {R : Type} (P : Call -> Prop) : Prog R -> Prop :=
| only_Ret r : only_calls P (Ret r)
| only_Raise : only_calls P Raise
| only_Await c k :
    P c -> (forall a, only_calls P (k a)) -> only_calls P (Await c k)
| only_Read k :
    (forall t, only_calls P (k t)) -> only_calls P (ReadAttempts k)
| only_Write t k :
    only_calls P k -> only_calls P (WriteAttempts t k).

(** [keeps_table p]: [p] writes nothing to the attempt table. *)
Inductive keeps_table {R : Type} : Prog R -> Prop :=
| keeps_Ret r : keeps_table (Ret r)
| keeps_Raise : keeps_table Raise
| keeps_Await c k : (forall a, keeps_table (k a)) -> keeps_table (Await c k)
| keeps_Read k : (forall t, keeps_table (k t)) -> keeps_table (ReadAttempts k).






Definition status (x : Result Response * World * list Call) : option Z :=
  match outcome x with
  | Ok (respond s _) => Some s
  | _ => None
  end.



(** ** Further notions *)

(** The user on whose behalf a store call is made. *)
Definition call_user (c : StorageCall) : Z :=
  match c with
  | getPasswordsByUserId u => u
  | getPasswordById _ u => u
  | createPassword _ u => u
  | updatePassword _ u _ => u
  | deletePassword _ u => u
  | getPasswordStats u => u
  | getSecurityAlertsByUserId u => u
  | resolveSecurityAlert _ u => u
  | createActivityLog log => il_userId log
  | getActivityLogsByUserId u _ => u
  end.

(** Every store call is made for [user]. *)
Definition acts_for (user : option Z) (c : Call) : Prop :=
  match c with
  | storage sc => user = Some (call_user sc)
  | _ => True
  end.


(** Counts stay between 0 and [MAX_ATTEMPTS]. *)
Definition counts_bounded (t : gmap string AttemptInfo) : Prop :=
  forall key a, t !! key = Some a -> (0 <= count a <= MAX_ATTEMPTS)%Z.

(** The routes whose handler asks for [req.session.userId]. *)
Definition needs_session (r : Route) : bool :=
  match r with
  | GET_api_passwords => true
  | GET_api_passwords_id => true
  | POST_api_passwords => true
  | PUT_api_passwords_id => true
  | DELETE_api_passwords_id => true
  | GET_api_password_stats => true
  | GET_api_security_alerts => true
  | POST_api_security_alerts_id_resolve => true
  | GET_api_activity_logs => true
  | _ => false
  end.

(** No call is rejected / every call is rejected. *)
Definition never_rejects (env : Env) : Prop :=
  forall c d, (env c d).1 <> Err.

Definition always_rejects (env : Env) : Prop :=
  forall c d, (env c d).1 = Err.

(** The store of [reliable], except that writing the activity log fails. *)
Definition log_down (verdict : AuthCall -> Result unit) (generated : string) : Env :=
  fun c =>
    match c as c0 return Storage -> Result (Answer c0) * Storage with
    | storage (createActivityLog log) => fun d => (Err, d)
    | c' => reliable verdict generated c'
    end.

Definition is_decimal_digit (a : ascii) : bool :=
  (48 <=? nat_of_ascii a)%nat && (nat_of_ascii a <=? 57)%nat.

Fixpoint all_decimal_digits (s : string) : bool :=
  match s with
  | String a r => is_decimal_digit a && all_decimal_digits r
  | EmptyString => true
  end.

(** A string that does not go on with a decimal digit. *)
Definition no_digit_ahead (s : string) : bool :=
  match s with
  | String a _ => negb (is_decimal_digit a)
  | EmptyString => true
  end.

Definition nonzero_digits : list ascii :=
  ["1"; "2"; "3"; "4"; "5"; "6"; "7"; "8"; "9"]%char.

Section MoreNotions.

Context `{Imports}.

(** The strength a call hands to the store is the score of the payload it
    hands over with it: always on create; on update a strength is sent
    exactly when the new payload is a non-empty string. *)
Definition strength_is_scored (c : Call) : Prop :=
  match c with
  | storage (createPassword data _) =>
      ip_strength data = calculatePasswordStrength (ip_encryptedPassword data)
  | storage (updatePassword _ _ data) =>
      us_strength data =
        if truthy_str (us_encryptedPassword data)
        then Some (calculatePasswordStrength (default "" (us_encryptedPassword data)))
        else None
  | _ => True
  end.

(** Every attempt of the list is answered with 429 without a call. *)
Fixpoint all_blocked (l : list LoginAttempt) (w : World) : Prop :=
  match l with
  | [] => True
  | a :: l =>
      outcome (attempt a w) = Ok too_many /\ calls (attempt a w) = [] /\
      all_blocked l (final (attempt a w))
  end.

(** The request with another [:id]. *)
Definition with_id (req : Request) (id : string) : Request :=
  {| x_forwarded_for := x_forwarded_for req; user_agent := user_agent req;
     ip := ip req; session_userId := session_userId req;
     params_id := id; body := body req |}.

(** The body of a registration passes every check of the route. *)
Definition registration_valid (b : Body) : Prop :=
  exists data, insertUserSchema b = ParseOk data /\
    isValidEmail (email data) = true /\ isStrongPassword (password data) = true.

End MoreNotions.

(** The password entries of one user. *)
Definition entries_of (v : Z) (d : Storage) : list Password :=
  List.filter (fun p => p_userId p =? v)%Z (passwords d).

(** The other modules are out of reach: every call is rejected. *)
Definition unreachable : Env := fun c d => (Err, d).

(** Modelled from the spec: what the handlers and the middleware of
    [./auth] and the generator of [./utils], none of which is among the
    sources, do to the store.  The audit log is a record of vault
    mutations, and entries are written by the vault operations only:
    authentication, registration, logout and password generation leave the
    store's entries and its activity log as they are. *)
Definition auth_keeps_store (env : Env) : Prop :=
  forall c d,
    match c with
    | storage _ => True
    | _ => (env c d).2 = d
    end.

(** * The attempt table as the object literal it is

    [loginAttempts] is created as [{}]: besides the records stored in it,
    it answers for every property of [Object.prototype].  This module reads
    [loginRateLimiter] and the login handler on that object: a lookup can
    find a stored record, one of the methods of [Object.prototype] (a
    function object, for [constructor], [toString], ...),
    [Object.prototype] itself (for [__proto__]), or, once the limiter has
    written to [Object.prototype], the number it left there (for [count]
    and [lastAttempt]). *)
Module ObjectLiteral.

(** The value of a numeric property. *)
Inductive Num : Type :=
| finite (n : Z)
| NaN.

(** An object, as far as the limiter and the handler look at it: its own
    [count] and [lastAttempt], absent or holding a number. *)
Record Obj := {
  own_count : option Num;
  own_lastAttempt : option Num
}.

Definition empty_object : Obj :=
  {| own_count := None; own_lastAttempt := None |}.

(** The object literal [{ count: c, lastAttempt: t }]. *)
Definition record_object (a : AttemptInfo) : Obj :=
  {| own_count := Some (finite (count a));
     own_lastAttempt := Some (finite (lastAttempt a)) |}.

(** The methods every object inherits from [Object.prototype]. *)
Definition method_names : list string :=
  ["constructor"; "hasOwnProperty"; "isPrototypeOf"; "propertyIsEnumerable";
   "toLocaleString"; "toString"; "valueOf"; "__defineGetter__";
   "__defineSetter__"; "__lookupGetter__"; "__lookupSetter__"].

Record Heap := {
  table : gmap string Obj;      (* the own properties of loginAttempts *)
  methods : gmap string Obj;    (* what has been written to the methods *)
  prototype : Obj               (* what has been written to Object.prototype *)
}.

Definition pristine : Heap :=
  {| table := ∅; methods := ∅; prototype := empty_object |}.

Inductive Ref : Type :=
| entry (key : string)
| method (name : string)
| object_prototype.

Inductive Value : Type :=
| object (r : Ref)
| primitive (v : Num)
| undefined.

Definition inherited_value (v : option Num) : Value :=
  match v with
  | Some n => primitive n
  | None => undefined
  end.

(** [loginAttempts[key]] *)
Definition get (h : Heap) (key : string) : Value :=
  match table h !! key with
  | Some _ => object (entry key)
  | None =>
      if decide (key = "__proto__") then object object_prototype
      else if decide (key ∈ method_names) then object (method key)
      else if decide (key = "count")
      then inherited_value (own_count (prototype h))
      else if decide (key = "lastAttempt")
      then inherited_value (own_lastAttempt (prototype h))
      else undefined
  end.

Definition truthy (v : Value) : bool :=
  match v with
  | object _ => true
  | primitive (finite n) => negb (n =? 0)%Z
  | primitive NaN => false
  | undefined => false
  end.

Definition the_object (h : Heap) (r : Ref) : Obj :=
  match r with
  | entry key =>
      match table h !! key with Some o => o | None => empty_object end
  | method name =>
      match methods h !! name with Some o => o | None => empty_object end
  | object_prototype => prototype h
  end.

(** Reading a property: the object's own, else what [Object.prototype]
    has under that name, else [undefined]. *)
Definition read (p : Obj -> option Num) (h : Heap) (r : Ref) : option Num :=
  match p (the_object h r) with
  | Some v => Some v
  | None => p (prototype h)
  end.

(** Writing a property of an object. *)
Definition update (f : Obj -> Obj) (h : Heap) (r : Ref) : Heap :=
  match r with
  | entry key =>
      {| table := <[key := f (the_object h r)]> (table h);
         methods := methods h; prototype := prototype h |}
  | method name =>
      {| table := table h;
         methods := <[name := f (the_object h r)]> (methods h);
         prototype := prototype h |}
  | object_prototype =>
      {| table := table h; methods := methods h;
         prototype := f (prototype h) |}
  end.

Definition set_count (v : Num) (o : Obj) : Obj :=
  {| own_count := Some v; own_lastAttempt := own_lastAttempt o |}.

Definition set_lastAttempt (v : Num) (o : Obj) : Obj :=
  {| own_count := own_count o; own_lastAttempt := Some v |}.

(** [now - lastAttempt > BLOCK_TIME_MS]; a comparison with [NaN] is false,
    and [undefined] converts to [NaN]. *)
Definition long_ago (now : Z) (last : option Num) : bool :=
  match last with
  | Some (finite l) => (BLOCK_TIME_MS <? now - l)%Z
  | _ => false
  end.

(** [count >= MAX_ATTEMPTS] *)
Definition at_the_limit (c : option Num) : bool :=
  match c with
  | Some (finite c) => (MAX_ATTEMPTS <=? c)%Z
  | _ => false
  end.

(** [count++] *)
Definition incremented (c : option Num) : Num :=
  match c with
  | Some (finite c) => finite (c + 1)
  | _ => NaN
  end.

Section Login.

Context `{Imports}.

(** The login handler; [settled] is how [login] settles if it is called. *)
Definition post_auth_login_handler (req : Request) (settled : Result unit)
    (attemptInfo : Ref) (h : Heap) : Result Response * Heap * list Call :=
  match loginUserSchema (body req) with
  | ParseFail m => (Ok (respond 400 (message m)), h, [])
  | ParseOk _ =>
      match settled with
      | Ok _ =>
          (Ok sent_by_auth, update (set_count (finite 0)) h attemptInfo,
           [auth login])
      | Err =>
          (Ok (handleServerError "An error occurred during login"),
           update (set_count (incremented (read own_count h attemptInfo)))
             h attemptInfo,
           [auth login])
      end
  end.

(** The limiter.  The module is strict-mode code, so assigning a property
    of a number throws; the limiter is not inside any [try]. *)
Definition loginRateLimiter (now : Z) (req : Request)
    (next : Ref -> Heap -> Result Response * Heap * list Call) (h : Heap)
  : Result Response * Heap * list Call :=
  let ip := client_key req in
  let h :=
    if truthy (get h ip) then h
    else {| table :=
              <[ip := record_object {| count := 0; lastAttempt := now |}]>
                (table h);
            methods := methods h; prototype := prototype h |} in
  match get h ip with
  | object attemptInfo =>
      let h :=
        if long_ago now (read own_lastAttempt h attemptInfo)
        then update (set_count (finite 0)) h attemptInfo
        else h in
      let h := update (set_lastAttempt (finite now)) h attemptInfo in
      if at_the_limit (read own_count h attemptInfo)
      then (Ok too_many, h, [])
      else next attemptInfo h
  | _ => (Err, h, [])
  end.

Definition post_auth_login (now : Z) (req : Request) (settled : Result unit)
    (h : Heap) : Result Response * Heap * list Call :=
  loginRateLimiter now req (post_auth_login_handler req settled) h.

(** A run of login requests, each with its time and the way [login]
    settles. *)
Fixpoint attempts (l : list (Z * Request * Result unit)) (h : Heap) : Heap :=
  match l with
  | [] => h
  | (now, req, settled) :: l =>
      attempts l (post_auth_login now req settled h).1.2
  end.

End Login.

(** The table of records as an object literal holding them. *)
Definition holding (t : gmap string AttemptInfo) (ms : gmap string Obj)
    (p : Obj) : Heap :=
  {| table := record_object <$> t; methods := ms; prototype := p |}.

(** A key that names nothing an object inherits. *)
Definition ordinary (key : string) : Prop :=
  key <> "__proto__" /\ (key ∉ method_names) /\
  key <> "count" /\ key <> "lastAttempt".

End ObjectLiteral.

(** * Sample data *)

(** A sample of what the routes import, to run them on concrete requests:
    a body is a flat object of text and number fields. *)
Inductive Field : Type :=
| text (s : string)
| num (n : Z).

Definition field (k : string) (b : list (string * Field)) : option Field :=
  snd <$> List.find (fun kv => String.eqb (fst kv) k) b.

Definition required_text (k : string) (b : list (string * Field)) : SafeParse string :=
  match field k b with
  | Some (text s) => ParseOk s
  | Some (num _) => ParseFail "Expected string, received number"
  | None => ParseFail "Required"
  end.

Definition optional_text (k : string) (b : list (string * Field))
  : SafeParse (option string) :=
  match field k b with
  | Some (text s) => ParseOk (Some s)
  | Some (num _) => ParseFail "Expected string, received number"
  | None => ParseOk None
  end.

Definition both {A B C} (f : A -> B -> C) (a : SafeParse A) (b : SafeParse B)
  : SafeParse C :=
  match a, b with
  | ParseOk x, ParseOk y => ParseOk (f x y)
  | ParseFail m, _ => ParseFail m
  | _, ParseFail m => ParseFail m
  end.

Definition has (f : ascii -> bool) (s : string) : bool :=
  existsb f (list_ascii_of_string s).

Definition in_range (lo hi : nat) (a : ascii) : bool :=
  (lo <=? nat_of_ascii a)%nat && (nat_of_ascii a <=? hi)%nat.

Definition is_symbol (a : ascii) : bool :=
  negb (in_range 65 90 a || in_range 97 122 a || in_range 48 57 a).

(** Modelled from the spec: a strength score ([calculatePasswordStrength]
    of [./utils] is not among the sources).  Independent criteria (minimum
    length, upper case, lower case, digit, symbol) and a bonus for length
    beyond the baseline, weighted to a score in [0, 100]; the empty string
    scores at the floor. *)
Definition sample_strength (s : string) : Z :=
  let n := Z.of_nat (String.length s) in
  let points (b : bool) : Z := if b then 15%Z else 0%Z in
  (points (8 <=? n) + points (has (in_range 65 90) s)
   + points (has (in_range 97 122) s) + points (has (in_range 48 57) s)
   + points (has is_symbol s) + Z.min 25 (5 * Z.max 0 (n - 8)))%Z.

Definition sample_imports : Imports :=
  {| Body := list (string * Field);
     loginUserSchema b :=
       both (fun _ _ => tt) (required_text "username" b) (required_text "password" b);
     insertUserSchema b :=
       both (fun e p => {| email := e; password := p |})
         (required_text "email" b) (required_text "password" b);
     insertPasswordSchema b :=
       both (fun t p => {| title := t; encryptedPassword := p |})
         (required_text "title" b) (required_text "encryptedPassword" b);
     updatePasswordSchema b :=
       both (fun t p => {| new_title := t; new_encryptedPassword := p |})
         (optional_text "title" b) (optional_text "encryptedPassword" b);
     passwordGeneratorSchema b :=
       match field "length" b with
       | Some (num n) =>
           ParseOk {| length := n; includeUppercase := true;
                      includeLowercase := true; includeNumbers := true;
                      includeSymbols := true |}
       | Some (text _) => ParseFail "Expected number, received string"
       | None => ParseFail "Required"
       end;
     calculatePasswordStrength := sample_strength;
     isValidEmail s := has (Ascii.eqb "@") s;
     isStrongPassword s := (75 <=? sample_strength s)%Z |}.

Section Sample.

#[local] Existing Instance sample_imports.

Definition empty_store : Storage :=
  {| passwords := []; securityAlerts := []; activityLogs := [];
     nextPasswordId := 1; nextLogId := 1 |}.

Definition fresh : World := {| loginAttempts := ∅; db := empty_store |}.

Definition sample_request (id : string) (b : list (string * Field)) : Request :=
  {| x_forwarded_for := None; user_agent := Some "curl/8.5";
     ip := Some "203.0.113.7"; session_userId := Some 1%Z;
     params_id := id; body := b |}.

Definition good_login : Request :=
  sample_request "" [("username", text "ada"); ("password", text "Tr0ub4dor&3!")].

Definition wrong_password : Env := reliable (fun _ => Err) "".
Definition right_password : Env := reliable (fun _ => Ok tt) "".



(** The vault after one entry has been created through the create route. *)
Definition new_entry : Request :=
  sample_request ""
    [("title", text "mail"); ("encryptedPassword", text "Tr0ub4dor&3!")].

Definition one_entry : World :=
  final (run right_password (post_passwords new_entry) fresh).

(** A request without a signed-in user: the session carries the id 0. *)
Definition signed_out : Request :=
  {| x_forwarded_for := None; user_agent := None; ip := Some "203.0.113.7";
     session_userId := Some 0%Z; params_id := "1"; body := [] |}.

(** The client at 203.0.113.7 after five failures, the last one at time 0. *)
Definition blocked : World :=
  {| loginAttempts := {[ "203.0.113.7" := {| count := 5; lastAttempt := 0 |} ]};
     db := empty_store |}.


Definition retry_at (t : Z) : LoginAttempt :=
  {| when := t; request := good_login; settles := right_password |}.

(** A login request that names [constructor] as the client. *)
Definition constructor_login : Request :=
  {| x_forwarded_for := Some "constructor"; user_agent := Some "curl/8.5";
     ip := Some "203.0.113.7"; session_userId := None; params_id := "";
     body := [("username", text "ada"); ("password", text "Tr0ub4dor&3!")] |}.

(** A request of a signed-out client for the entry [abc]. *)
Definition signed_out_abc : Request :=
  {| x_forwarded_for := None; user_agent := None; ip := Some "203.0.113.7";
     session_userId := None; params_id := "abc"; body := [] |}.

(** The id [12] after a no-break space (U+00A0). *)
Definition nbsp_12 : string :=
  String (ascii_of_nat 194) (String (ascii_of_nat 160) "12").

End Sample.

(** * Properties *)

Ltac step :=
  cbn [run bind try_catch await getField setCount setLastAttempt
       loginAttempts db lastAttempt count].

Section RateGate.

Context `{Imports}.

Lemma run_loginRateLimiter env now req next w :
  let key := client_key req in
  let a := gate_record (loginAttempts w !! key) now in
  let w1 := with_attempts w (<[key := a]> (loginAttempts w)) in
  run env (loginRateLimiter now req next) w =
    if (MAX_ATTEMPTS <=? count a)%Z
    then (Ok too_many, w1, [])
    else run env (next (Some key)) w1.
Proof.
  intros key a w1. subst a w1. unfold loginRateLimiter, too_many. fold key.
  step.
  destruct (loginAttempts w !! key) as [a|] eqn:E; step; cbn [gate_record].
  - rewrite E. step.
    destruct (BLOCK_TIME_MS <? now - lastAttempt a)%Z; step;
      rewrite ?E; step; rewrite ?lookup_insert_eq; step;
      rewrite ?lookup_insert_eq, ?insert_insert_eq; step;
      unfold with_attempts;
      match goal with |- context [(MAX_ATTEMPTS <=? ?c)%Z] =>
        destruct (MAX_ATTEMPTS <=? c)%Z end; reflexivity.
  - rewrite !lookup_insert_eq. step.
    replace (now - now)%Z with 0%Z by lia.
    change (BLOCK_TIME_MS <? 0)%Z with false. step.
    rewrite !lookup_insert_eq. step.
    rewrite !lookup_insert_eq, !insert_insert_eq. step.
    unfold with_attempts. destruct (MAX_ATTEMPTS <=? 0)%Z; reflexivity.
Qed.

Lemma run_post_auth_login_handler env req key w a :
  loginAttempts w !! key = Some a ->
  run env (post_auth_login_handler req (Some key)) w =
    match loginUserSchema (body req) with
    | ParseFail m => (Ok (respond 400 (message m)), w, [])
    | ParseOk _ =>
        match env (auth login) (db w) with
        | (Ok _, d) =>
            (Ok sent_by_auth,
             {| loginAttempts := <[key := with_count a 0]> (loginAttempts w);
                db := d |},
             [auth login])
        | (Err, d) =>
            (Ok (handleServerError "An error occurred during login"),
             {| loginAttempts := <[key := with_count a (count a + 1)]> (loginAttempts w);
                db := d |},
             [auth login])
        end
    end.
Proof.
  intros E. unfold post_auth_login_handler.
  destruct (loginUserSchema (body req)) as [data|m]; step; [|reflexivity].
  destruct (env (auth login) (db w)) as [[[]|] d]; step; rewrite E; step;
    rewrite ?E; step; reflexivity.
Qed.

(** The login route in one piece: the limiter, then the handler. *)
Lemma run_post_auth_login env now req w :
  let key := client_key req in
  let a := gate_record (loginAttempts w !! key) now in
  let t := loginAttempts w in
  run env (post_auth_login now req) w =
    if (MAX_ATTEMPTS <=? count a)%Z
    then (Ok too_many, with_attempts w (<[key := a]> t), [])
    else
      match loginUserSchema (body req) with
      | ParseFail m =>
          (Ok (respond 400 (message m)), with_attempts w (<[key := a]> t), [])
      | ParseOk _ =>
          match env (auth login) (db w) with
          | (Ok _, d) =>
              (Ok sent_by_auth,
               {| loginAttempts := <[key := with_count a 0]> t; db := d |},
               [auth login])
          | (Err, d) =>
              (Ok (handleServerError "An error occurred during login"),
               {| loginAttempts := <[key := with_count a (count a + 1)]> t; db := d |},
               [auth login])
          end
      end.
Proof.
  intros key a t. unfold post_auth_login.
  rewrite run_loginRateLimiter. fold key a t.
  destruct (MAX_ATTEMPTS <=? count a)%Z; [reflexivity|].
  rewrite (@run_post_auth_login_handler env req key _ a)
    by apply lookup_insert_eq.
  destruct (loginUserSchema (body req)); [|reflexivity].
  cbn [with_attempts loginAttempts db].
  destruct (env (auth login) (db w)) as [[[]|] d];
    rewrite insert_insert_eq; reflexivity.
Qed.

(** The rate limiter's own effect on a count. *)
Lemma gate_record_nonneg o now :
  (forall a, o = Some a -> 0 <= count a)%Z -> (0 <= count (gate_record o now))%Z.
Proof.
  destruct o as [a|]; cbn; [|lia].
  intros Ha. destruct (BLOCK_TIME_MS <? now - lastAttempt a)%Z; [lia|by apply Ha].
Qed.

Lemma gate_record_within a now :
  (now - lastAttempt a <= BLOCK_TIME_MS)%Z ->
  gate_record (Some a) now = {| count := count a; lastAttempt := now |}.
Proof.
  intros Hle. cbn. by rewrite (proj2 (Z.ltb_ge _ _) Hle).
Qed.

Lemma gate_record_expired a now :
  (BLOCK_TIME_MS < now - lastAttempt a)%Z ->
  gate_record (Some a) now = {| count := 0; lastAttempt := now |}.
Proof.
  intros Hlt. cbn. by rewrite (proj2 (Z.ltb_lt _ _) Hlt).
Qed.



(** C2, as the code has it. For a client with a record whose last attempt is
    more than [BLOCK_TIME_MS] back, the next attempt is handed to the login
    handler with the count at 0, whatever the count was, and is not
    answered with 429. *)
Theorem expired_block_resets env now req w a :
  loginAttempts w !! client_key req = Some a ->
  (BLOCK_TIME_MS < now - lastAttempt a)%Z ->
  let x := run env (post_auth_login now req) w in
  x = run env (post_auth_login_handler req (Some (client_key req)))
        (with_attempts w
           (<[client_key req := {| count := 0; lastAttempt := now |}]>
              (loginAttempts w)))
  /\ outcome x <> Ok too_many.
Proof.
  intros E Hlt x. subst x. split.
  - unfold post_auth_login. rewrite run_loginRateLimiter, E.
    by rewrite gate_record_expired.
  - rewrite run_post_auth_login, E, gate_record_expired by done.
    cbn [count]. change (MAX_ATTEMPTS <=? 0)%Z with false.
    destruct (loginUserSchema (body req));
      [destruct (env (auth login) (db w)) as [[[]|] d]|]; by cbn.
Qed.






End RateGate.

(** ** What a route calls *)

Section Calls.

Context {R : Type}.
Implicit Types (p h : Prog R) (P : Call -> Prop).

Lemma only_calls_try_catch P p h :
  only_calls P p -> only_calls P h -> only_calls P (try_catch p h).
Proof. induction 1; intros Hh; cbn; try constructor; auto. Qed.

Lemma only_calls_bind {A} P (q : Prog A) (f : A -> Prog R) :
  only_calls P q -> (forall a, only_calls P (f a)) -> only_calls P (bind q f).
Proof. induction 1; intros Hf; cbn; try constructor; auto. Qed.

Lemma only_calls_run P env p : forall w,
  only_calls P p -> Forall P (calls (run env p w)).
Proof.
  intros w Hp. revert w.
  induction Hp as [r| |c k Hc Hk IH|k Hk IH|t k Hk IH]; intros w; cbn [run].
  - constructor.
  - constructor.
  - destruct (env c (db w)) as [a d].
    specialize (IH a {| loginAttempts := loginAttempts w; db := d |}).
    destruct (run env (k a) _) as [[r w'] l]. cbn in *. by constructor.
  - apply IH.
  - apply IH.
Qed.

Lemma keeps_table_try_catch p h :
  keeps_table p -> keeps_table h -> keeps_table (try_catch p h).
Proof. induction 1; intros Hh; cbn; try constructor; auto. Qed.

Lemma keeps_table_bind {A} (q : Prog A) (f : A -> Prog R) :
  keeps_table q -> (forall a, keeps_table (f a)) -> keeps_table (bind q f).
Proof. induction 1; intros Hf; cbn; try constructor; auto. Qed.

Lemma keeps_table_run env p : forall w,
  keeps_table p -> loginAttempts (final (run env p w)) = loginAttempts w.
Proof.
  intros w Hp. revert w.
  induction Hp as [r| |c k Hk IH|k Hk IH]; intros w; cbn [run].
  - reflexivity.
  - reflexivity.
  - destruct (env c (db w)) as [a d].
    specialize (IH a {| loginAttempts := loginAttempts w; db := d |}).
    by destruct (run env (k a) _) as [[r w'] l].
  - apply IH.
Qed.

(** A route whose store calls all leave some part [f] of the store alone
    leaves [f] alone, provided the store is transactional. *)
Lemma run_frame {A} (f : Storage -> A) P env p : forall w,
  transactional env ->
  (forall c, P c ->
     exists sc, c = storage sc /\ forall d, f (DatabaseStorage sc d).2 = f d) ->
  only_calls P p ->
  f (db (final (run env p w))) = f (db w).
Proof.
  intros w Henv HP Hp. revert w.
  induction Hp as [r| |c k Hc Hk IH|k Hk IH|t k Hk IH]; intros w; cbn [run].
  - reflexivity.
  - reflexivity.
  - destruct (HP c Hc) as (sc & -> & Hf).
    destruct (Henv sc (db w)) as [E|E]; rewrite E.
    + specialize (IH Err {| loginAttempts := loginAttempts w; db := db w |}).
      by destruct (run env (k Err) _) as [[r w'] l].
    + specialize (IH (Ok (DatabaseStorage sc (db w)).1)
                     {| loginAttempts := loginAttempts w;
                        db := (DatabaseStorage sc (db w)).2 |}).
      destruct (run env (k _) _) as [[r w'] l]. cbn in *. by rewrite IH, Hf.
  - apply IH.
  - by rewrite IH.
Qed.

End Calls.

Lemma only_calls_await P c : P c -> only_calls P (await c).
Proof. intros Hc. constructor; [done|]. intros [a|]; constructor. Qed.

Lemma keeps_table_await c : keeps_table (await c).
Proof. constructor. intros [a|]; constructor. Qed.

Lemma reliable_transactional verdict generated :
  transactional (reliable verdict generated).
Proof. intros c d. by right. Qed.

Ltac route_calls_with tac :=
  repeat first
    [ apply only_calls_try_catch
    | apply only_calls_bind; [|intros]
    | apply only_calls_await; tac
    | apply only_Ret
    | apply only_Raise
    | apply only_Read; intros
    | apply only_Write
    | match goal with
      | |- only_calls _ (match ?x with _ => _ end) => destruct x
      end ].

Ltac route_keeps :=
  repeat first
    [ apply keeps_table_try_catch
    | apply keeps_table_bind; [|intros]
    | apply keeps_table_await
    | apply keeps_Ret
    | match goal with
      | |- keeps_table (match ?x with _ => _ end) => destruct x
      end ].

(** ** The vault routes *)

Example parseInt_digits : parseInt "42" = Some 42%Z.
Proof. reflexivity. Qed.
Example parseInt_prefix : parseInt " 12abc" = Some 12%Z.
Proof. reflexivity. Qed.
Example parseInt_negative : parseInt "-3" = Some (-3)%Z.
Proof. reflexivity. Qed.
Example parseInt_hex : parseInt "0x1f" = Some 31%Z.
Proof. reflexivity. Qed.
Example parseInt_NaN : parseInt "abc" = None.
Proof. reflexivity. Qed.
Example parseInt_empty : parseInt "" = None.
Proof. reflexivity. Qed.


Section Vault.

Context `{Imports}.




Lemma counts_nonneg_insert t key a :
  counts_nonneg t -> (0 <= count a)%Z -> counts_nonneg (<[key := a]> t).
Proof.
  intros Ht Ha k b Hk. destruct (decide (key = k)) as [->|Hne].
  - rewrite lookup_insert_eq in Hk. by injection Hk as <-.
  - rewrite lookup_insert_ne in Hk by done. by apply (Ht k).
Qed.

(** The attempt table of a running server: it starts empty, and no route
    takes a count below zero. *)
Lemma routes_keep_counts_nonneg r env now req w :
  counts_nonneg (loginAttempts w) ->
  counts_nonneg (loginAttempts (final (run env (registerRoutes r now req) w))).
Proof.
  intros Hw.
  destruct r;
    try (rewrite keeps_table_run; [done|]; cbn [registerRoutes];
         unfold post_auth_register, post_auth_logout, get_auth_me,
           get_passwords, get_password, post_passwords, put_password,
           delete_password, get_password_stats, get_security_alerts,
           post_security_alert_resolve, get_activity_logs, get_health,
           post_generate_password;
         by route_keeps).
  cbn [registerRoutes]. rewrite run_post_auth_login.
  pose proof (@gate_record_nonneg (loginAttempts w !! client_key req) now
                (fun a => Hw (client_key req) a)) as Hc.
  set (a := gate_record _ now) in *.
  destruct (MAX_ATTEMPTS <=? count a)%Z eqn:Hmax;
    [|destruct (loginUserSchema (body req));
      [destruct (env (auth login) (db w)) as [[[]|] d]|]];
    cbn [final fst snd with_attempts loginAttempts];
    apply counts_nonneg_insert; cbn; try done; lia.
Qed.



(** *** The audit trail of create, update and delete *)






(** *** Reading the activity log *)




(** *** Strength on update *)

Lemma find_map_update id u data l p :
  List.find (is_entry id u) l = Some p ->
  List.find (is_entry id u)
    (List.map (fun q => if is_entry id u q then apply_update data q else q) l)
  = Some (apply_update data p).
Proof.
  induction l as [|a l IH]; [done|]. cbn [List.find List.map].
  destruct (is_entry id u a) eqn:E.
  - intros [= ->].
    assert (is_entry id u (apply_update data p) = true) as -> by exact E.
    done.
  - rewrite E. exact IH.
Qed.

(** What a successful update leaves in the store: the payload of the
    request when there is one, and a strength that is recomputed from the
    new payload when that payload is a non-empty string and is the stored
    one otherwise. *)
Lemma put_password_persists env req w userId n data :
  transactional env ->
  session_user req = Some userId ->
  parseInt (params_id req) = Some n -> (0 < n)%Z ->
  updatePasswordSchema (body req) = ParseOk data ->
  let x := run env (put_password req) w in
  status x = Some 200%Z ->
  exists p p',
    List.find (is_entry n userId) (passwords (db w)) = Some p /\
    List.find (is_entry n userId) (passwords (db (final x))) = Some p' /\
    p_encryptedPassword p' =
      default (p_encryptedPassword p) (new_encryptedPassword data) /\
    p_strength p' =
      if truthy_str (new_encryptedPassword data)
      then calculatePasswordStrength (default "" (new_encryptedPassword data))
      else p_strength p.
Proof.
  intros Henv Huser Hid Hpos Hdata x. subst x. unfold put_password.
  rewrite Huser, Hid, Hdata. cbn [invalid_id number default].
  rewrite (proj2 (Z.leb_gt _ _) Hpos). step.
  match goal with |- context [env (storage ?c) ?d] =>
    destruct (Henv c d) as [E|E]; rewrite E end; step; [done|].
  cbn [DatabaseStorage].
  destruct (find _ (passwords (db w))) as [p|] eqn:Hfind; cbn [fst snd]; step;
    [|done].
  match goal with |- context [env (storage ?c) ?d] =>
    destruct (Henv c d) as [E'|E']; rewrite E' end; step; [done|].
  intros _. eexists p, _. split; [done|].
  cbn [final fst snd db DatabaseStorage passwords with_passwords].
  split; [by apply find_map_update|].
  by destruct (truthy_str (new_encryptedPassword data)).
Qed.

End Vault.

(** * Further properties of the routes *)

Ltac unfold_routes :=
  cbn [registerRoutes];
  unfold post_auth_register, post_auth_logout, get_auth_me,
    get_passwords, get_password, post_passwords, put_password,
    delete_password, get_password_stats, get_security_alerts,
    post_security_alert_resolve, get_activity_logs, get_health,
    post_generate_password.

(** Walk through a route: settle each call as [Henv] allows, and split on
    what the route looks at. *)
Ltac settle env Henv :=
  repeat (step; cbn [fst snd negb];
    match goal with
    | |- context [env ?c ?d] =>
        let E := fresh "E" in
        pose proof (Henv c d) as E;
        destruct (env c d) as [[?|] ?]; cbn [fst] in E;
        try congruence
    | |- context [match ?x with Some _ => _ | None => _ end] => destruct x
    | |- context [match ?x with ParseOk _ => _ | ParseFail _ => _ end] => destruct x
    | |- context [if ?b then _ else _] => destruct b
    end).



Lemma digit_of_decimal a :
  is_decimal_digit a = true ->
  digit_of 10 a = Some (Z.of_nat (nat_of_ascii a) - 48)%Z.
Proof.
  unfold is_decimal_digit, digit_of. intros Ha.
  apply andb_true_iff in Ha as [Hlo Hhi].
  apply Nat.leb_le in Hlo, Hhi.
  rewrite (proj2 (Z.leb_le 48 _)), (proj2 (Z.leb_le _ 57)) by lia. cbn [andb].
  by rewrite (proj2 (Z.ltb_lt _ 10)) by lia.
Qed.

Lemma digit_of_other a :
  is_decimal_digit a = false -> digit_of 10 a = None.
Proof.
  unfold is_decimal_digit, digit_of. intros Ha.
  set (n := Z.of_nat (nat_of_ascii a)).
  assert (Hn : (n < 48 \/ 57 < n)%Z).
  { apply andb_false_iff in Ha as [Ha|Ha]; apply Nat.leb_gt in Ha; lia. }
  assert ((48 <=? n)%Z && (n <=? 57)%Z = false) as ->.
  { apply andb_false_iff. destruct Hn; [left|right]; by apply Z.leb_gt. }
  destruct ((97 <=? n)%Z && (n <=? 122)%Z) eqn:Hlow.
  { apply andb_true_iff in Hlow as [Hlo _]. apply Z.leb_le in Hlo.
    by rewrite (proj2 (Z.ltb_ge _ _)) by lia. }
  destruct ((65 <=? n)%Z && (n <=? 90)%Z) eqn:Hup.
  { apply andb_true_iff in Hup as [Hlo _]. apply Z.leb_le in Hlo.
    by rewrite (proj2 (Z.ltb_ge _ _)) by lia. }
  by rewrite Z.ltb_irrefl.
Qed.

Lemma append_empty (s : string) : "" +:+ s = s.
Proof. reflexivity. Qed.

Lemma append_String a (s r : string) : String a s +:+ r = String a (s +:+ r).
Proof. reflexivity. Qed.

Lemma parse_digits_tail ds rest : forall acc,
  all_decimal_digits ds = true -> no_digit_ahead rest = true ->
  parse_digits 10 (ds ++ rest) (Some acc) = parse_digits 10 ds (Some acc).
Proof.
  induction ds as [|a ds IH]; intros acc Hds Hrest.
  - rewrite append_empty. destruct rest as [|b rest]; [done|].
    cbn [no_digit_ahead] in Hrest. apply negb_true_iff in Hrest.
    cbn [parse_digits]. by rewrite digit_of_other.
  - cbn in Hds. apply andb_true_iff in Hds as [Ha Hds].
    rewrite append_String. cbn [parse_digits]. rewrite digit_of_decimal by done.
    by apply IH.
Qed.

(** [parseInt] reads a run of decimal digits that starts with a non-zero
    digit and ignores whatever follows it. *)
Lemma parseInt_tail c ds rest :
  In c nonzero_digits -> all_decimal_digits ds = true ->
  no_digit_ahead rest = true ->
  parseInt (String c (ds ++ rest)) = parseInt (String c ds).
Proof.
  intros Hc Hds Hrest. unfold nonzero_digits in Hc. cbn [In] in Hc.
  unfold parseInt.
  repeat (destruct Hc as [<-|Hc];
          [cbn; f_equal; by apply parse_digits_tail|]).
  done.
Qed.

Lemma entries_of_update v id u data l :
  v <> u ->
  List.filter (fun p => p_userId p =? v)%Z
    (List.map (fun q => if is_entry id u q then apply_update data q else q) l)
  = List.filter (fun p => p_userId p =? v)%Z l.
Proof.
  intros Hne. induction l as [|q l IH]; [done|]. cbn [List.map List.filter].
  destruct (is_entry id u q) eqn:E; [|by rewrite IH].
  cbn [apply_update p_userId]. apply andb_true_iff in E as [_ Hu].
  apply Z.eqb_eq in Hu. rewrite Hu, (proj2 (Z.eqb_neq u v)) by done.
  exact IH.
Qed.

Lemma entries_of_delete v id u l :
  v <> u ->
  List.filter (fun p => p_userId p =? v)%Z
    (List.filter (fun q => negb (is_entry id u q)) l)
  = List.filter (fun p => p_userId p =? v)%Z l.
Proof.
  intros Hne. induction l as [|q l IH]; [done|]. cbn [List.filter].
  destruct (is_entry id u q) eqn:E; cbn [negb List.filter]; [|by rewrite IH].
  apply andb_true_iff in E as [_ Hu]. apply Z.eqb_eq in Hu.
  by rewrite Hu, (proj2 (Z.eqb_neq u v)) by done.
Qed.

Lemma call_for_user_frame u v c :
  v <> u ->
  (exists sc, c = storage sc /\ call_user sc = u) ->
  exists sc, c = storage sc /\
    forall d, entries_of v (DatabaseStorage sc d).2 = entries_of v d.
Proof.
  intros Hne (sc & -> & Hu). exists sc. split; [done|]. intros d.
  unfold entries_of. destruct sc; cbn in Hu |- *; subst; try done.
  - rewrite List.filter_app. cbn. rewrite (proj2 (Z.eqb_neq _ v)) by done.
    by rewrite app_nil_r.
  - destruct (find _ _); cbn; [|done]. by apply entries_of_update.
  - destruct (existsb _ _); cbn; [|done]. by apply entries_of_delete.
  - by destruct (existsb _ _).
Qed.

Lemma login_or_not (r : Route) :
  r = POST_api_auth_login \/ r <> POST_api_auth_login.
Proof. destruct r; auto. Qed.

Section Further.

Context `{Imports}.


(** X2. A route answers 500 only when a call it awaited was rejected: if
    no call is rejected, no route answers 500. *)
Theorem no_500_without_rejection r env now req w :
  never_rejects env ->
  status (run env (registerRoutes r now req) w) <> Some 500%Z.
Proof.
  intros Henv. destruct r.
  1: { cbn [registerRoutes]. rewrite run_post_auth_login.
       pose proof (Henv (auth login) (db w)) as E.
       destruct (MAX_ATTEMPTS <=? _)%Z;
         [|destruct (loginUserSchema (body req));
           [destruct (env (auth login) (db w)) as [[[]|] d]|]];
         cbn in E |- *; congruence. }
  all: unfold_routes; settle env Henv; by cbn.
Qed.

(** X3. When every call is rejected, a route either answers without
    making a call, and then not with 500, or it answers 500 after its
    first call and makes no second one. *)
Theorem rejection_fails_fast r env now req w :
  always_rejects env ->
  let x := run env (registerRoutes r now req) w in
  (calls x = [] /\ status x <> Some 500%Z) \/
  (status x = Some 500%Z /\ List.length (calls x) = 1%nat).
Proof.
  intros Henv x. subst x. destruct r.
  1: { cbn [registerRoutes]. rewrite run_post_auth_login.
       pose proof (Henv (auth login) (db w)) as E.
       destruct (MAX_ATTEMPTS <=? _)%Z;
         [|destruct (loginUserSchema (body req));
           [destruct (env (auth login) (db w)) as [[[]|] d]|]];
         cbn in E |- *; try congruence; auto. }
  all: unfold_routes; settle env Henv; cbn; auto.
Qed.

(** X4. On the routes that ask for the session user, a request whose
    session has no user id, or the user id 0, is answered with 401
    [Unauthorized]; the route makes no call and leaves the state as it
    was. *)
Theorem signed_out_is_unauthorized r env now req w :
  needs_session r = true ->
  session_userId req = None \/ session_userId req = Some 0%Z ->
  run env (registerRoutes r now req) w = (Ok unauthorized, w, []).
Proof.
  intros Hr Hout.
  assert (Hnone : session_user req = None).
  { unfold session_user. by destruct Hout as [-> | ->]. }
  destruct r; try discriminate Hr; unfold_routes; by rewrite Hnone.
Qed.

(** X5. Every store call a route makes carries the user id of the session:
    no route reads or writes the store on behalf of another user, whatever
    the body and the path of the request say. *)
Theorem store_calls_act_for_session_user r env now req w :
  Forall (acts_for (session_user req)) (calls (run env (registerRoutes r now req) w)).
Proof.
  apply only_calls_run.
  destruct r; unfold_routes;
    unfold post_auth_login, loginRateLimiter, post_auth_login_handler,
      getField, setCount, setLastAttempt;
    route_calls_with ltac:(first [exact I | reflexivity]).
Qed.

(** X6. The strength a route hands to the store is never chosen by the
    client: on create it is the score of the payload, on update it is sent
    exactly when the new payload is a non-empty string and is then its
    score. *)
Theorem strength_sent_is_scored r env now req w :
  Forall strength_is_scored (calls (run env (registerRoutes r now req) w)).
Proof.
  apply only_calls_run.
  destruct r; unfold_routes;
    unfold post_auth_login, loginRateLimiter, post_auth_login_handler,
      getField, setCount, setLastAttempt;
    route_calls_with ltac:(first
      [ exact I | reflexivity
      | cbn;
        match goal with |- context [truthy_str (new_encryptedPassword ?d)] =>
          destruct (truthy_str (new_encryptedPassword d)) eqn:E
        end; cbn; by rewrite E ]).
Qed.

(** X7. The register route calls [register] exactly when the body passes
    the schema, the email is valid and the password is strong; otherwise it
    answers 400 without a call and leaves the state as it was. *)
Theorem register_only_after_all_checks env req w :
  let x := run env (post_auth_register req) w in
  (registration_valid (body req) -> calls x = [auth register]) /\
  (~ registration_valid (body req) ->
     calls x = [] /\ final x = w /\ status x = Some 400%Z).
Proof.
  intros x. subst x. unfold post_auth_register, registration_valid.
  destruct (insertUserSchema (body req)) as [data|m].
  - destruct (isValidEmail (email data)) eqn:He;
      [destruct (isStrongPassword (password data)) eqn:Hp|]; cbn [negb].
    + split; [|intros Hno; exfalso; apply Hno; by exists data].
      intros _. step. by destruct (env (auth register) (db w)) as [[[]|] d].
    + split; [|done]. intros (data' & [= <-] & _ & Hp'). congruence.
    + split; [|done]. intros (data' & [= <-] & He' & _). congruence.
  - split; [|done]. by intros (data' & ? & _).
Qed.

Lemma other_routes_keep_table r env now req w :
  r <> POST_api_auth_login ->
  loginAttempts (final (run env (registerRoutes r now req) w)) = loginAttempts w.
Proof.
  intros Hr. apply keeps_table_run.
  destruct r; try done; unfold_routes; route_keeps.
Qed.

(** What the login route leaves in the attempt table: the one record of
    the client, over the table as it was. *)
Lemma login_table env now req w :
  exists a,
    loginAttempts (final (run env (post_auth_login now req) w)) =
      <[client_key req := a]> (loginAttempts w) /\
    lastAttempt a = now /\
    let c := count (gate_record (loginAttempts w !! client_key req) now) in
    (count a = c \/ count a = 0 \/ (c < MAX_ATTEMPTS /\ count a = c + 1))%Z.
Proof.
  rewrite run_post_auth_login.
  set (g := gate_record _ now).
  assert (Hg : lastAttempt g = now) by (subst g; by destruct (_ !! _)).
  destruct (MAX_ATTEMPTS <=? count g)%Z eqn:Hmax;
    [|destruct (loginUserSchema (body req));
      [destruct (env (auth login) (db w)) as [[[]|] d]|]];
    cbn [final fst snd with_attempts loginAttempts];
    eexists; (split; [reflexivity|]); (split; [by cbn|]); cbn; auto.
  apply Z.leb_gt in Hmax. auto.
Qed.


(** X9. No route removes a record from the attempt table: a client that
    has a record keeps one. *)
Theorem records_are_never_removed r env now req w key :
  is_Some (loginAttempts w !! key) ->
  is_Some (loginAttempts (final (run env (registerRoutes r now req) w)) !! key).
Proof.
  intros Hkey.
  destruct (login_or_not r) as [->|Hr];
    [|by rewrite other_routes_keep_table].
  cbn [registerRoutes].
  destruct (login_table env now req w) as (a & -> & _).
  destruct (decide (client_key req = key)) as [Hk|Hne].
  - subst key. rewrite lookup_insert_eq. by eexists.
  - by rewrite lookup_insert_ne.
Qed.

(** X10. Counts stay between 0 and [MAX_ATTEMPTS]: a table in which every
    count does is left so by every route. *)
Theorem counts_stay_bounded r env now req w :
  counts_bounded (loginAttempts w) ->
  counts_bounded (loginAttempts (final (run env (registerRoutes r now req) w))).
Proof.
  intros Hw.
  destruct (login_or_not r) as [->|Hr];
    [|by rewrite other_routes_keep_table].
  cbn [registerRoutes].
  destruct (login_table env now req w) as (a & -> & _ & Hc).
  assert (Hg : (0 <= count (gate_record (loginAttempts w !! client_key req) now)
                <= MAX_ATTEMPTS)%Z).
  { destruct (loginAttempts w !! client_key req) as [r|] eqn:E; cbn.
    - destruct (BLOCK_TIME_MS <? _)%Z; [done|]. by apply (Hw (client_key req)).
    - done. }
  intros key b Hb. destruct (decide (client_key req = key)) as [Hk|Hne].
  - subst key. rewrite lookup_insert_eq in Hb. injection Hb as <-.
    cbv zeta in Hc. unfold MAX_ATTEMPTS in *. lia.
  - rewrite lookup_insert_ne in Hb by done. by apply (Hw key).
Qed.

(** X11. A blocked client that keeps trying stays blocked: once its count
    has reached [MAX_ATTEMPTS], attempts that each come at most
    [BLOCK_TIME_MS] after the one before are all answered with 429 without
    a call, and the count stays as it is, however long ago the last failure
    was. *)
Theorem blocked_client_stays_blocked key l : forall w r,
  loginAttempts w !! key = Some r ->
  (MAX_ATTEMPTS <= count r)%Z ->
  Forall (fun a => client_key (request a) = key) l ->
  within_block (lastAttempt r) l ->
  all_blocked l w /\ count_of (attempts l w) key = Some (count r).
Proof.
  induction l as [|a l IH]; intros w r Hr Hmax Hall Hgaps.
  - split; [done|]. unfold count_of. cbn. by rewrite Hr.
  - apply Forall_cons in Hall as [Hkey Hall]. destruct Hgaps as [Hgap Hgaps].
    assert (Hrun : attempt a w =
              (Ok too_many,
               with_attempts w
                 (<[key := {| count := count r; lastAttempt := when a |}]>
                    (loginAttempts w)), [])).
    { unfold attempt. rewrite run_post_auth_login, Hkey, Hr.
      rewrite gate_record_within by done. cbn [count].
      by rewrite (proj2 (Z.leb_le _ _) Hmax). }
    cbn [all_blocked attempts]. rewrite Hrun.
    cbn [outcome calls final fst snd].
    destruct (IH (with_attempts w
                    (<[key := {| count := count r; lastAttempt := when a |}]>
                       (loginAttempts w)))
                 {| count := count r; lastAttempt := when a |})
      as [Hblocked Hcount]; try done.
    cbn. apply lookup_insert_eq.
Qed.


(** X13. A route does the same for the id [12abc] as for [12]: after a
    run of decimal digits that starts with a non-zero digit, whatever
    follows in the [:id] is ignored. *)
Theorem text_after_the_id_is_ignored r now req c ds rest :
  In c nonzero_digits -> all_decimal_digits ds = true ->
  no_digit_ahead rest = true ->
  registerRoutes r now (with_id req (String c (ds ++ rest))) =
  registerRoutes r now (with_id req (String c ds)).
Proof.
  intros Hc Hds Hrest.
  destruct r; unfold_routes;
    unfold post_auth_login, loginRateLimiter, post_auth_login_handler,
      activity, client_key, client_address, client_agent, session_user;
    cbn [with_id params_id body x_forwarded_for ip user_agent session_userId];
    by rewrite ?(@parseInt_tail c ds rest Hc Hds Hrest).
Qed.

(** X14. When the store creates the entry but rejects the write to the
    activity log, the create route answers 500 although the entry is in
    the store; nothing is logged. *)
Theorem failed_log_keeps_created_entry verdict generated req w userId data :
  session_user req = Some userId ->
  insertPasswordSchema (body req) = ParseOk data ->
  let x := run (log_down verdict generated) (post_passwords req) w in
  status x = Some 500%Z /\
  passwords (db (final x)) =
    passwords (db w) ++
      [{| p_id := nextPasswordId (db w); p_userId := userId;
          p_title := title data;
          p_encryptedPassword := encryptedPassword data;
          p_strength := calculatePasswordStrength (encryptedPassword data) |}] /\
  activityLogs (db (final x)) = activityLogs (db w).
Proof.
  intros Huser Hdata x. subst x. unfold post_passwords.
  rewrite Huser, Hdata. by cbn.
Qed.

(** X15. When the store removes the entry but rejects the write to the
    activity log, the delete route answers 500 although the entry is gone;
    nothing is logged. *)
Theorem failed_log_keeps_deletion verdict generated req w userId n :
  session_user req = Some userId ->
  parseInt (params_id req) = Some n -> (0 < n)%Z ->
  existsb (is_entry n userId) (passwords (db w)) = true ->
  let x := run (log_down verdict generated) (delete_password req) w in
  status x = Some 500%Z /\
  passwords (db (final x)) =
    List.filter (fun q => negb (is_entry n userId q)) (passwords (db w)) /\
  activityLogs (db (final x)) = activityLogs (db w).
Proof.
  intros Huser Hid Hpos Hin x. subst x. unfold delete_password.
  rewrite Huser, Hid. cbn [invalid_id number default].
  rewrite (proj2 (Z.leb_gt _ _) Hpos). cbn. rewrite Hin. by cbn.
Qed.


Lemma session_routes_call_for_user r now req u :
  needs_session r = true -> session_user req = Some u ->
  only_calls (fun c => exists sc, c = storage sc /\ call_user sc = u)
    (registerRoutes r now req).
Proof.
  intros Hr Hu. destruct r; try discriminate Hr; unfold_routes; rewrite Hu;
    route_calls_with ltac:(by eexists).
Qed.

(** X17. On the routes that ask for the session user, a request of one
    user leaves the password entries of every other user as they were. *)
Theorem other_users_entries_untouched r env now req w u v :
  transactional env ->
  needs_session r = true -> session_user req = Some u -> v <> u ->
  entries_of v (db (final (run env (registerRoutes r now req) w))) =
  entries_of v (db w).
Proof.
  intros Henv Hr Hu Hne.
  apply (run_frame (entries_of v) w Henv
           (fun c => @call_for_user_frame u v c Hne)).
  by apply session_routes_call_for_user.
Qed.

(** X18. A create that is answered with 201 answers with the new entry: it
    belongs to the session user, has the title and the payload of the
    request and the score of that payload as its strength, and it is the one
    entry added to the user's entries. *)
Theorem created_entry_is_listed env req w u data :
  transactional env ->
  session_user req = Some u ->
  insertPasswordSchema (body req) = ParseOk data ->
  let x := run env (post_passwords req) w in
  status x = Some 201%Z ->
  exists p,
    outcome x = Ok (respond 201 (json_password p)) /\
    p_userId p = u /\ p_title p = title data /\
    p_encryptedPassword p = encryptedPassword data /\
    p_strength p = calculatePasswordStrength (encryptedPassword data) /\
    entries_of u (db (final x)) = entries_of u (db w) ++ [p].
Proof.
  intros Henv Hu Hdata x. subst x. unfold post_passwords.
  rewrite Hu, Hdata. step.
  match goal with |- context [env (storage ?c) ?d] =>
    destruct (Henv c d) as [E|E]; rewrite E end; step; [done|].
  match goal with |- context [env (storage ?c) ?d] =>
    destruct (Henv c d) as [E'|E']; rewrite E' end; step; [done|].
  intros _. eexists. split; [reflexivity|]. cbn.
  repeat split. unfold entries_of. cbn. rewrite List.filter_app. cbn.
  by rewrite Z.eqb_refl.
Qed.

End Further.

(** * The routes on sample data *)

Section SampleRuns.

#[local] Existing Instance sample_imports.

Example sample_strength_strong : sample_strength "Tr0ub4dor&3!" = 95%Z.
Proof. reflexivity. Qed.

Example sample_strength_floor : sample_strength "" = 0%Z.
Proof. reflexivity. Qed.




(** A record with five failures, met again sixteen minutes later. *)
Lemma expired_block_resets_witness :
  let w := {| loginAttempts := {[ "203.0.113.7" := {| count := 5; lastAttempt := 0 |} ]};
              db := empty_store |} in
  let x := run wrong_password (post_auth_login 960000 good_login) w in
  x = run wrong_password (post_auth_login_handler good_login (Some "203.0.113.7"))
        (with_attempts w
           (<["203.0.113.7" := {| count := 0; lastAttempt := 960000 |}]>
              (loginAttempts w)))
  /\ outcome x <> Ok too_many.
Proof.
  apply (@expired_block_resets sample_imports wrong_password 960000 good_login
           _ {| count := 5; lastAttempt := 0 |}).
  - reflexivity.
  - cbn. unfold BLOCK_TIME_MS. lia.
Defined.

(** C2, at the boundary. A record with five failures whose last attempt is
    exactly [BLOCK_TIME_MS] back: the elapsed time is at least the block
    window, yet the count is not reset and the attempt is answered with
    429 without a call to [login]. *)
Lemma block_boundary_still_blocked :
  let w := {| loginAttempts := {[ "203.0.113.7" := {| count := 5; lastAttempt := 0 |} ]};
              db := empty_store |} in
  let x := run right_password (post_auth_login 900000 good_login) w in
  loginAttempts w !! client_key good_login = Some {| count := 5; lastAttempt := 0 |} /\
  (900000 - 0 >= BLOCK_TIME_MS)%Z /\
  outcome x = Ok too_many /\
  count_of (final x) "203.0.113.7" = Some 5%Z /\
  calls x = [].
Proof.
  cbv zeta. repeat split; try (vm_compute; reflexivity).
  unfold BLOCK_TIME_MS. lia.
Qed.




Example one_entry_passwords :
  passwords (db one_entry) =
    [{| p_id := 1; p_userId := 1; p_title := "mail";
        p_encryptedPassword := "Tr0ub4dor&3!"; p_strength := 95 |}].
Proof. reflexivity. Qed.

Example one_entry_log :
  List.map l_action (activityLogs (db one_entry)) = ["create_password"].
Proof. reflexivity. Qed.

Example update_is_logged :
  List.map l_action (activityLogs (db (final (run right_password
    (put_password (sample_request "1" [("title", text "mail (work)")]))
    one_entry))))
  = ["create_password"; "update_password"].
Proof. reflexivity. Qed.

Example delete_is_logged :
  List.map l_action (activityLogs (db (final (run right_password
    (delete_password (sample_request "1" [])) one_entry))))
  = ["create_password"; "delete_password"].
Proof. reflexivity. Qed.

Example delete_of_missing_entry_is_not_logged :
  let x := run right_password (delete_password (sample_request "7" [])) one_entry in
  status x = Some 404%Z /\
  List.map l_action (activityLogs (db (final x))) = ["create_password"].
Proof. by split. Qed.




(** C4, at the empty payload. An entry is created with the payload
    [Tr0ub4dor&3!], which scores 95; it is then updated with the empty
    string as its new payload.  The update succeeds and the stored payload
    is the empty string, but the stored strength is still 95, not the score
    of the new payload: the route recomputes the strength only when the new
    payload is truthy. *)
Theorem empty_payload_keeps_old_strength :
  let req := sample_request "1" [("encryptedPassword", text "")] in
  let x := run right_password (put_password req) one_entry in
  updatePasswordSchema (body req) =
    ParseOk {| new_title := None; new_encryptedPassword := Some "" |} /\
  status x = Some 200%Z /\
  passwords (db (final x)) =
    [{| p_id := 1; p_userId := 1; p_title := "mail";
        p_encryptedPassword := ""; p_strength := 95 |}] /\
  calculatePasswordStrength "" = 0%Z.
Proof. cbv zeta. repeat split; vm_compute; reflexivity. Qed.

(** *** Further runs *)

Lemma right_password_never_rejects : never_rejects right_password.
Proof. intros c d. by destruct c. Qed.

Lemma unreachable_always_rejects : always_rejects unreachable.
Proof. by intros c d. Qed.

Lemma counts_bounded_empty : counts_bounded ∅.
Proof. intros key a Hkey. by rewrite lookup_empty in Hkey. Qed.

Lemma no_500_without_rejection_witness :
  status (run right_password
            (registerRoutes DELETE_api_passwords_id 0 (sample_request "1" []))
            one_entry) <> Some 500%Z.
Proof.
  apply (@no_500_without_rejection sample_imports DELETE_api_passwords_id
           right_password 0 (sample_request "1" []) one_entry).
  exact right_password_never_rejects.
Defined.

Lemma rejection_fails_fast_witness :
  let x := run unreachable
             (registerRoutes POST_api_passwords 0 new_entry) fresh in
  (calls x = [] /\ status x <> Some 500%Z) \/
  (status x = Some 500%Z /\ List.length (calls x) = 1%nat).
Proof.
  apply (@rejection_fails_fast sample_imports POST_api_passwords unreachable
           0 new_entry fresh).
  exact unreachable_always_rejects.
Defined.

Lemma signed_out_is_unauthorized_witness :
  run right_password (registerRoutes GET_api_passwords_id 0 signed_out) one_entry
  = (Ok unauthorized, one_entry, []).
Proof.
  apply (@signed_out_is_unauthorized sample_imports GET_api_passwords_id
           right_password 0 signed_out one_entry).
  - reflexivity.
  - right. reflexivity.
Defined.


Lemma records_are_never_removed_witness :
  is_Some (loginAttempts (final (run right_password
    (registerRoutes POST_api_auth_logout 1000 good_login) blocked))
    !! "203.0.113.7").
Proof.
  apply (@records_are_never_removed sample_imports POST_api_auth_logout
           right_password 1000 good_login blocked "203.0.113.7").
  exists {| count := 5; lastAttempt := 0 |}. reflexivity.
Defined.

Lemma counts_stay_bounded_witness :
  counts_bounded (loginAttempts (final (run wrong_password
    (registerRoutes POST_api_auth_login 1000 good_login) fresh))).
Proof.
  apply (@counts_stay_bounded sample_imports POST_api_auth_login
           wrong_password 1000 good_login fresh).
  exact counts_bounded_empty.
Defined.

(** Blocked at time 0, the client comes back with the right password after
    ten and after twenty minutes: both attempts are answered with 429. *)
Lemma blocked_client_stays_blocked_witness :
  all_blocked [retry_at 600000; retry_at 1200000] blocked /\
  count_of (attempts [retry_at 600000; retry_at 1200000] blocked) "203.0.113.7"
  = Some 5%Z.
Proof.
  apply (@blocked_client_stays_blocked sample_imports "203.0.113.7"
           [retry_at 600000; retry_at 1200000] blocked
           {| count := 5; lastAttempt := 0 |}).
  - reflexivity.
  - cbn. unfold MAX_ATTEMPTS. lia.
  - repeat constructor.
  - cbn. unfold BLOCK_TIME_MS. lia.
Defined.


Lemma text_after_the_id_is_ignored_witness :
  registerRoutes GET_api_passwords_id 0
    (with_id (sample_request "" []) "12abc") =
  registerRoutes GET_api_passwords_id 0
    (with_id (sample_request "" []) "12").
Proof.
  apply (@text_after_the_id_is_ignored sample_imports GET_api_passwords_id 0
           (sample_request "" []) "1" "2" "abc").
  - cbn. auto.
  - reflexivity.
  - reflexivity.
Defined.

Lemma failed_log_keeps_created_entry_witness :
  let x := run (log_down (fun _ => Ok tt) "") (post_passwords new_entry) fresh in
  status x = Some 500%Z /\
  passwords (db (final x)) =
    passwords (db fresh) ++
      [{| p_id := 1; p_userId := 1; p_title := "mail";
          p_encryptedPassword := "Tr0ub4dor&3!";
          p_strength := sample_strength "Tr0ub4dor&3!" |}] /\
  activityLogs (db (final x)) = activityLogs (db fresh).
Proof.
  apply (@failed_log_keeps_created_entry sample_imports (fun _ => Ok tt) ""
           new_entry fresh 1%Z
           {| title := "mail"; encryptedPassword := "Tr0ub4dor&3!" |});
    reflexivity.
Defined.

Lemma failed_log_keeps_deletion_witness :
  let x := run (log_down (fun _ => Ok tt) "")
             (delete_password (sample_request "1" [])) one_entry in
  status x = Some 500%Z /\
  passwords (db (final x)) =
    List.filter (fun q => negb (is_entry 1 1 q)) (passwords (db one_entry)) /\
  activityLogs (db (final x)) = activityLogs (db one_entry).
Proof.
  apply (@failed_log_keeps_deletion sample_imports (fun _ => Ok tt) ""
           (sample_request "1" []) one_entry 1%Z 1%Z); reflexivity.
Defined.


Lemma other_users_entries_untouched_witness :
  entries_of 2 (db (final (run right_password
    (registerRoutes DELETE_api_passwords_id 0 (sample_request "1" []))
    one_entry)))
  = entries_of 2 (db one_entry).
Proof.
  apply (@other_users_entries_untouched sample_imports DELETE_api_passwords_id
           right_password 0 (sample_request "1" []) one_entry 1%Z 2%Z).
  - apply reliable_transactional.
  - reflexivity.
  - reflexivity.
  - discriminate.
Defined.

Lemma created_entry_is_listed_witness :
  let x := run right_password (post_passwords new_entry) fresh in
  exists p,
    outcome x = Ok (respond 201 (json_password p)) /\
    p_userId p = 1%Z /\ p_title p = "mail" /\
    p_encryptedPassword p = "Tr0ub4dor&3!" /\
    p_strength p = sample_strength "Tr0ub4dor&3!" /\
    entries_of 1 (db (final x)) = entries_of 1 (db fresh) ++ [p].
Proof.
  apply (@created_entry_is_listed sample_imports right_password new_entry
           fresh 1%Z {| title := "mail"; encryptedPassword := "Tr0ub4dor&3!" |}).
  - apply reliable_transactional.
  - reflexivity.
  - reflexivity.
  - reflexivity.
Defined.

(** The entry of [one_entry] gets a new payload. *)
Lemma put_password_persists_witness :
  let req := sample_request "1" [("encryptedPassword", text "hunter2")] in
  let x := run right_password (put_password req) one_entry in
  exists p p',
    List.find (is_entry 1 1) (passwords (db one_entry)) = Some p /\
    List.find (is_entry 1 1) (passwords (db (final x))) = Some p' /\
    p_encryptedPassword p' = default (p_encryptedPassword p) (Some "hunter2") /\
    p_strength p' =
      if truthy_str (Some "hunter2")
      then sample_strength (default "" (Some "hunter2"))
      else p_strength p.
Proof.
  apply (@put_password_persists sample_imports right_password
           (sample_request "1" [("encryptedPassword", text "hunter2")])
           one_entry 1%Z 1%Z
           {| new_title := None; new_encryptedPassword := Some "hunter2" |}).
  - apply reliable_transactional.
  - reflexivity.
  - reflexivity.
  - lia.
  - reflexivity.
  - reflexivity.
Defined.

End SampleRuns.
